(** * webhose-python: the query builder, the session and the paginating
      response of [webhose/__init__.py], embedded in Rocq.

    The module is Python 2 code ([basestring], eager [map] and [filter],
    implicit relative import of [settings]); the embedding follows the
    Python 2.7 semantics of the built-ins it calls. *)

From Stdlib Require Import ZArith String Ascii List Lia.
From stdpp Require Import base option list strings gmap fin_maps pretty.

Local Open Scope string_scope.
Local Open Scope list_scope.
Local Open Scope Z_scope.

#[local] Arguments String.append !s1 s2 : simpl nomatch.

(** ** Exceptions and results *)

(** The exceptions the module can raise, directly or through a built-in.
    [TokenMissingException] and [Exception] carry their message;
    [LibraryError] is an exception raised inside [urlparse] or [requests],
    with the name of its class. *)
Inductive exn : Type :=
  | AttributeError
  | TypeError
  | KeyError
  | IndexError
  | ValueError
  | OverflowError
  | TokenMissingException (msg : string)
  | Exception (msg : string)
  | LibraryError (cls : string).

Inductive result (A : Type) : Type :=
  | Ok (a : A)
  | Raise (e : exn).
Arguments Ok {A} a.
Arguments Raise {A} e.

#[global] Instance result_ret : MRet result := fun _ a => Ok a.
#[global] Instance result_bind : MBind result := fun _ _ f m =>
  match m with
  | Ok a => f a
  | Raise e => Raise e
  end.
#[global] Instance result_fmap : FMap result := fun _ _ f m =>
  match m with
  | Ok a => Ok (f a)
  | Raise e => Raise e
  end.

(** What a call into [urlparse] or [requests] gives. *)
Inductive lib_result (A : Type) : Type :=
  | LibOk (a : A)
  | LibRaise (cls : string).
Arguments LibOk {A} a.
Arguments LibRaise {A} cls.

Definition lift_lib {A} (r : lib_result A) : result A :=
  match r with
  | LibOk a => Ok a
  | LibRaise cls => Raise (LibraryError cls)
  end.

(** [mapM] for [result]: left to right, stopping at the first exception. *)
Fixpoint result_mapM {A B} (f : A → result B) (l : list A) : result (list B) :=
  match l with
  | [] => Ok []
  | x :: l' => y ← f x; ys ← result_mapM f l'; Ok (y :: ys)
  end.

(** ** Python values held by a Query attribute *)

(** The objects a caller stores in a filter: [None], a [bool], an [int], a
    [str], or a list of [str]. There is one type of text: a [unicode] is
    taken to be ASCII, where it mixes with [str] without a coercion error. *)
Inductive value : Type :=
  | VNone
  | VBool (b : bool)
  | VInt (n : Z)
  | VStr (s : string)
  | VList (l : list string).

#[global] Instance value_eq_dec : EqDecision value.
Proof. solve_decision. Defined.

(** Truth value of an object, as tested by [if x:] and by [filter]. *)
Definition truthy (v : value) : bool :=
  match v with
  | VNone => false
  | VBool b => b
  | VInt n => negb (n =? 0)
  | VStr s => negb (String.eqb s "")
  | VList l => negb (Nat.eqb (length l) 0)
  end.

(** [isinstance(value, basestring)] *)
Definition is_basestring (v : value) : bool :=
  match v with VStr _ => true | _ => false end.

(** *** [repr] of a [str] (CPython 2.7 [string_repr]) *)

Definition dquote : ascii := "034"%char.
Definition squote : ascii := "039"%char.
Definition backslash : ascii := "092"%char.

Fixpoint str_contains (c : ascii) (s : string) : bool :=
  match s with
  | EmptyString => false
  | String d s' => Ascii.eqb c d || str_contains c s'
  end.

Definition hex_digit (n : N) : ascii :=
  match n with
  | 0 => "0" | 1 => "1" | 2 => "2" | 3 => "3" | 4 => "4" | 5 => "5"
  | 6 => "6" | 7 => "7" | 8 => "8" | 9 => "9" | 10 => "a" | 11 => "b"
  | 12 => "c" | 13 => "d" | 14 => "e" | _ => "f"
  end%N%char.

Definition repr_char (quote : ascii) (c : ascii) : string :=
  if Ascii.eqb c quote || Ascii.eqb c backslash then String backslash (String c "")
  else if Ascii.eqb c "009" then String backslash "t"
  else if Ascii.eqb c "010" then String backslash "n"
  else if Ascii.eqb c "013" then String backslash "r"
  else if (N_of_ascii c <? 32)%N || (127 <=? N_of_ascii c)%N then
    String backslash
      (String "x" (String (hex_digit (N_of_ascii c / 16))
                          (String (hex_digit (N_of_ascii c mod 16)) "")))
  else String c "".

Fixpoint repr_chars (quote : ascii) (s : string) : string :=
  match s with
  | EmptyString => ""
  | String c s' => repr_char quote c +:+ repr_chars quote s'
  end.

Definition repr_str (s : string) : string :=
  let quote :=
    if str_contains squote s && negb (str_contains dquote s) then dquote else squote in
  String quote (repr_chars quote s) +:+ String quote "".

(** [str(v)], which is what ["%s" % v] inserts. *)
Definition py_str (v : value) : string :=
  match v with
  | VNone => "None"
  | VBool true => "True"
  | VBool false => "False"
  | VInt n => pretty n
  | VStr s => s
  | VList l => "[" +:+ String.concat ", " (map repr_str l) +:+ "]"
  end.

(** [sep.join(items)]: every item has to be a [str]. *)
Fixpoint as_strs (items : list value) : result (list string) :=
  match items with
  | [] => Ok []
  | VStr s :: rest => ss ← as_strs rest; Ok (s :: ss)
  | _ :: _ => Raise TypeError
  end.

Definition py_join (sep : string) (items : list value) : result string :=
  ss ← as_strs items; Ok (String.concat sep ss).

(** [s.replace(old, new)] for a one-character [old]: every occurrence of
    the character is replaced, left to right. *)
Fixpoint str_replace1 (old : ascii) (new : string) (s : string) : string :=
  match s with
  | EmptyString => ""
  | String c s' =>
      (if Ascii.eqb c old then new else String c "") +:+ str_replace1 old new s'
  end.

(** [v.replace(" ", new)]: only a [str] has the method. *)
Definition py_replace_space (v : value) (new : string) : result string :=
  match v with
  | VStr s => Ok (str_replace1 " " new s)
  | _ => Raise AttributeError
  end.

(** The items a [for] loop (or a generator expression) draws from [v]. *)
Definition py_iter (v : value) : result (list value) :=
  match v with
  | VList l => Ok (map VStr l)
  | VStr s => Ok (map (λ c, VStr (String c "")) (list_ascii_of_string s))
  | _ => Raise TypeError
  end.

(** ** Query *)

Section Query.

(** [settings.py] is not part of the sources: its three tables are taken as
    given. *)
Variables ALL_FIELDS LIST_FIELDS DIRECT_FIELDS : list string.

(** A Query instance is its attribute dictionary; filter names are taken
    not to clash with the names of the methods of the class. *)
Definition Query : Type := gmap string value.

Definition getattr (self : gmap string value) (name : string) : result value :=
  match self !! name with
  | Some v => Ok v
  | None => Raise AttributeError
  end.

Definition Query_setattr (self : gmap string value) (name : string) (v : value)
  : gmap string value :=
  let v :=
    match v with
    | VStr s => if bool_decide (name ∈ LIST_FIELDS) then VList [s] else v
    | _ => v
    end in
  <[name := v]> self.

(** The body of [__init__], on the keyword arguments once they are bound. *)
Definition Query_init (kwargs : gmap string value) : gmap string value :=
  foldl (λ self name, Query_setattr self name (default VNone (kwargs !! name)))
        ∅ ALL_FIELDS.

(** A call of [Query] with the keyword arguments [kwargs]: a keyword named
    [self] is a second value for the first parameter of [__init__], a
    [TypeError] when the arguments are bound; any other name goes into
    the dictionary of keyword arguments. *)
Definition Query_call (kwargs : gmap string value) : result (gmap string value) :=
  if bool_decide (is_Some (kwargs !! "self")) then Raise TypeError
  else Ok (Query_init kwargs).

Definition list_string (self : gmap string value) (field : string) : result string :=
  v ← getattr self field;
  items ← py_iter v;
  inner ← py_join " OR " (map (λ x, VStr (field +:+ ":" +:+ py_str x)) items);
  Ok ("(" +:+ inner +:+ ")").

Definition direct_string (self : gmap string value) (field : string) : result string :=
  v ← getattr self field;
  Ok (field +:+ ":" +:+ py_str v).

(** [filter(lambda x: getattr(self, x), fields)] *)
Fixpoint filter_set (self : gmap string value) (fields : list string)
  : result (list string) :=
  match fields with
  | [] => Ok []
  | x :: rest =>
      v ← getattr self x;
      keep ← filter_set self rest;
      Ok (if truthy v then x :: keep else keep)
  end.

(** One guarded [qs.append]: [if self.<name>: qs.append(<term>)]. *)
Definition append_if (self : gmap string value) (name : string)
    (term : value → result value) (qs : list value) : result (list value) :=
  v ← getattr self name;
  if truthy v then t ← term v; Ok (qs ++ [t]) else Ok qs.

Definition query_string (self : gmap string value) : result string :=
  let qs := [] in
  qs ← append_if self "all_terms" (λ v, Ok v) qs;
  qs ← append_if self "exact_phrase"
         (λ v, Ok (VStr (String dquote (py_str v) +:+ String dquote ""))) qs;
  qs ← append_if self "some_terms"
         (λ v, s ← py_replace_space v " OR "; Ok (VStr ("(" +:+ s +:+ ")"))) qs;
  qs ← append_if self "exclude" (λ v, Ok (VStr ("-" +:+ py_str v))) qs;
  qs ← append_if self "is_first" (λ _, Ok (VStr "is_first:true")) qs;
  qs ← append_if self "thread_title"
         (λ v, Ok (VStr ("thread.title:(" +:+ py_str v +:+ ")"))) qs;
  qs ← append_if self "thread_section_title"
         (λ v, Ok (VStr ("thread.section_title:(" +:+ py_str v +:+ ")"))) qs;
  qs ← append_if self "language"
         (λ v, Ok (VStr ("language:(" +:+ py_str v +:+ ")"))) qs;
  qs ← append_if self "thread_country"
         (λ v, Ok (VStr ("thread.country:" +:+ py_str v))) qs;
  direct ← filter_set self DIRECT_FIELDS;
  direct ← result_mapM (direct_string self) direct;
  let qs := qs ++ map VStr direct in
  lists ← filter_set self LIST_FIELDS;
  lists ← result_mapM (list_string self) lists;
  let qs := qs ++ map VStr lists in
  py_join " " qs.

End Query.

(** ** Timestamps: [int], [datetime.strptime], [timedelta] arithmetic *)

(** *** [int(s)] for a [str] argument, base 10 *)

(** C [isspace]: space, tab, newline, vertical tab, form feed, return. *)
Definition is_space (c : ascii) : bool :=
  let n := N_of_ascii c in ((9 <=? n) && (n <=? 13) || (n =? 32))%N.

Definition is_digit (c : ascii) : bool :=
  let n := N_of_ascii c in ((48 <=? n) && (n <=? 57))%N.

Definition digit_value (c : ascii) : Z := Z.of_N (N_of_ascii c) - 48.

Fixpoint lstrip (s : string) : string :=
  match s with
  | String c s' => if is_space c then lstrip s' else s
  | EmptyString => s
  end.

(** Digits, then optional trailing white space; at least one digit. *)
Fixpoint digits_then_space (acc : Z) (seen : bool) (s : string) : option Z :=
  match s with
  | EmptyString => if seen then Some acc else None
  | String c s' =>
      if is_digit c then digits_then_space (10 * acc + digit_value c) true s'
      else if seen && is_space c && String.eqb (lstrip s') "" then Some acc
      else None
  end.

Definition py_int (s : string) : result Z :=
  let unsigned t :=
    match digits_then_space 0 false t with
    | Some n => Ok n
    | None => Raise ValueError
    end in
  match lstrip s with
  | String "+" t => unsigned t
  | String "-" t => n ← unsigned t; Ok (- n)
  | t => unsigned t
  end.

(** *** Slices of a [str] *)

(** [s[i]] for [i >= 0] *)
Definition str_index (s : string) (i : nat) : result ascii :=
  match String.get i s with
  | Some c => Ok c
  | None => Raise IndexError
  end.

(** [s[a:b]] for [0 <= a <= b] *)
Definition str_slice (s : string) (a b : nat) : string :=
  String.substring a (b - a) s.

(** [s[:-n]] for [n > 0] *)
Definition str_drop_last (s : string) (n : nat) : string :=
  String.substring 0 (String.length s - n) s.

(** *** [datetime] and its calendar arithmetic (after CPython's datetime) *)

Record datetime : Type := mk_datetime {
  year : Z; month : Z; day : Z; hour : Z; minute : Z; second : Z
}.

Definition is_leap (y : Z) : bool :=
  (y mod 4 =? 0) && (negb (y mod 100 =? 0) || (y mod 400 =? 0)).

Definition DAYS_IN_MONTH (m : Z) : Z :=
  nth (Z.to_nat m) [0; 31; 28; 31; 30; 31; 30; 31; 31; 30; 31; 30; 31] 0.

Definition DAYS_BEFORE_MONTH (m : Z) : Z :=
  nth (Z.to_nat m) [0; 0; 31; 59; 90; 120; 151; 181; 212; 243; 273; 304; 334] 0.

Definition days_in_month (y m : Z) : Z :=
  if (m =? 2) && is_leap y then 29 else DAYS_IN_MONTH m.

Definition days_before_month (y m : Z) : Z :=
  DAYS_BEFORE_MONTH m + (if (2 <? m) && is_leap y then 1 else 0).

Definition days_before_year (y : Z) : Z :=
  let y := y - 1 in y * 365 + y / 4 - y / 100 + y / 400.

(** 0001-01-01 is day 1. *)
Definition ymd2ord (y m d : Z) : Z :=
  days_before_year y + days_before_month y m + d.

Definition ord2ymd (n : Z) : Z * Z * Z :=
  let n := n - 1 in
  let n400 := n / 146097 in let n := n mod 146097 in
  let n100 := n / 36524 in let n := n mod 36524 in
  let n4 := n / 1461 in let n := n mod 1461 in
  let n1 := n / 365 in let n := n mod 365 in
  let y := n400 * 400 + 1 + n100 * 100 + n4 * 4 + n1 in
  if (n1 =? 4) || (n100 =? 4) then (y - 1, 12, 31)
  else
    let leapyear := (n1 =? 3) && (negb (n4 =? 24) || (n100 =? 3)) in
    let m := Z.shiftr (n + 50) 5 in
    let preceding := DAYS_BEFORE_MONTH m + (if (2 <? m) && leapyear then 1 else 0) in
    if n <? preceding then
      let m := m - 1 in
      let preceding :=
        preceding - (DAYS_IN_MONTH m + (if (m =? 2) && leapyear then 1 else 0)) in
      (y, m, n - preceding + 1)
    else (y, m, n - preceding + 1).

(** [datetime(y, m, d, H, M, S)]: the constructor checks every field. *)
Definition datetime_new (y m d H M S : Z) : result datetime :=
  if (1 <=? y) && (y <=? 9999) && (1 <=? m) && (m <=? 12)
     && (1 <=? d) && (d <=? days_in_month y m)
     && (0 <=? H) && (H <=? 23) && (0 <=? M) && (M <=? 59)
     && (0 <=? S) && (S <=? 59)
  then Ok (mk_datetime y m d H M S)
  else Raise ValueError.

(** Seconds since the midnight that starts day 0. *)
Definition datetime_seconds (dt : datetime) : Z :=
  ymd2ord (year dt) (month dt) (day dt) * 86400
  + hour dt * 3600 + minute dt * 60 + second dt.

(** A [timedelta] is its whole number of seconds (no microseconds arise). *)
Definition timedelta (hours minutes : Z) : Z := hours * 3600 + minutes * 60.

(** [dt - delta]: the fields are renormalised; a date outside years 1..9999
    is an [OverflowError]. *)
Definition datetime_sub (dt : datetime) (delta : Z) : result datetime :=
  let t := datetime_seconds dt - delta in
  let ord := t / 86400 in
  let s := t mod 86400 in
  if (1 <=? ord) && (ord <=? 3652059) then
    let '(y, m, d) := ord2ymd ord in
    Ok (mk_datetime y m d (s / 3600) (s mod 3600 / 60) (s mod 60))
  else Raise OverflowError.

(** *** [datetime.strptime]

    [_strptime] turns the format into a regular expression, one named group
    per directive, and matches it at the start of the data with
    [re.IGNORECASE]. The expression is a sequence of alternations of
    character-class strings, matched leftmost-first with backtracking. *)

Definition cclass : Type := ascii → bool.

Definition in_range (lo hi : ascii) : cclass :=
  λ c, ((N_of_ascii lo <=? N_of_ascii c) && (N_of_ascii c <=? N_of_ascii hi))%N.

Definition lower (c : ascii) : ascii :=
  if in_range "A" "Z" c then ascii_of_N (N_of_ascii c + 32) else c.

(** A literal character of the format, case ignored. *)
Definition lit (l : ascii) : cclass := λ c, Ascii.eqb (lower c) (lower l).

Definition d09 : cclass := in_range "0" "9".

(** An item is a directive (or [None] for a literal) with its alternatives. *)
Definition item : Type := option ascii * list (list cclass).

Definition directive (d : ascii) : option item :=
  if Ascii.eqb d "Y" then Some (Some d, [[d09; d09; d09; d09]])
  else if Ascii.eqb d "m" then
    Some (Some d, [[lit "1"; in_range "0" "2"]; [lit "0"; in_range "1" "9"];
                   [in_range "1" "9"]])
  else if Ascii.eqb d "d" then
    Some (Some d, [[lit "3"; in_range "0" "1"]; [in_range "1" "2"; d09];
                   [lit "0"; in_range "1" "9"]; [in_range "1" "9"];
                   [lit " "; in_range "1" "9"]])
  else if Ascii.eqb d "H" then
    Some (Some d, [[lit "2"; in_range "0" "3"]; [in_range "0" "1"; d09]; [d09]])
  else if Ascii.eqb d "M" then
    Some (Some d, [[in_range "0" "5"; d09]; [d09]])
  else if Ascii.eqb d "S" then
    Some (Some d, [[lit "6"; in_range "0" "1"]; [in_range "0" "5"; d09]; [d09]])
  else None.

(** The items of a format made of the directives above and of literal
    characters other than white space; [None] for anything else. *)
Fixpoint format_items (format : string) : option (list item) :=
  match format with
  | EmptyString => Some []
  | String "%" (String d rest) =>
      it ← directive d; its ← format_items rest; Some (it :: its)
  | String c rest =>
      if is_space c || Ascii.eqb c "%" then None
      else its ← format_items rest; Some ((None, [[lit c]]) :: its)
  end.

Fixpoint match_alt (a : list cclass) (s : string) : option (string * string) :=
  match a with
  | [] => Some ("", s)
  | cl :: a' =>
      match s with
      | String c s' =>
          if cl c then
            match match_alt a' s' with
            | Some (cap, rest) => Some (String c cap, rest)
            | None => None
            end
          else None
      | EmptyString => None
      end
  end.

(** Leftmost-first backtracking match of the items at the start of [s]:
    the captures, by directive, and the unmatched rest. *)
Fixpoint match_items (items : list item) (s : string)
  : option (list (option ascii * string) * string) :=
  match items with
  | [] => Some ([], s)
  | (tag, alts) :: items' =>
      (fix try (alts : list (list cclass)) :=
         match alts with
         | [] => None
         | a :: alts' =>
             match match_alt a s with
             | Some (cap, rest) =>
                 match match_items items' rest with
                 | Some (caps, r) => Some ((tag, cap) :: caps, r)
                 | None => try alts'
                 end
             | None => try alts'
             end
         end) alts
  end.

(** The value of directive [d] among the captures, [dflt] when absent. *)
Fixpoint group (caps : list (option ascii * string)) (d : ascii) (dflt : Z)
  : result Z :=
  match caps with
  | [] => Ok dflt
  | (Some d', cap) :: caps' =>
      if Ascii.eqb d d' then py_int cap else group caps' d dflt
  | (None, _) :: caps' => group caps' d dflt
  end.

(** The C function takes both arguments as C strings: a NUL byte in either
    is a [TypeError]. *)
Definition nul : ascii := "000"%char.

Definition strptime (data format : string) : result datetime :=
  if str_contains nul data || str_contains nul format then Raise TypeError else
  match format_items format with
  | None => Raise ValueError
  | Some items =>
      match match_items items data with
      | Some (caps, EmptyString) =>
          y ← group caps "Y" 1900;
          m ← group caps "m" 1;
          d ← group caps "d" 1;
          H ← group caps "H" 0;
          M ← group caps "M" 0;
          S ← group caps "S" 0;
          datetime_new y m d H M S
      | _ => Raise ValueError
      end
  end.

(** *** [parse_iso8601] *)

Definition parse_iso8601 (str_date : string) : result datetime :=
  dt ← strptime (str_drop_last str_date 10) "%Y-%m-%dT%H:%M:%S";
  hours ← py_int (str_slice str_date 24 26);
  minutes ← py_int (str_slice str_date 27 29);
  sign ← str_index str_date 23;
  let offset := timedelta hours minutes * (if Ascii.eqb sign "+" then 1 else -1) in
  datetime_sub dt offset.

(** ** Decoded JSON *)

(** What [response.json()] returns: [None], [bool], [int], [unicode], [list]
    or [dict] with string keys. *)
#[local] Set Warnings "-register-all".
Inductive json : Type :=
  | JNull
  | JBool (b : bool)
  | JInt (n : Z)
  | JStr (s : string)
  | JArr (l : list json)
  | JObj (m : gmap string json).

(** [j[key]] for a string key. *)
Definition json_getitem (j : json) (key : string) : result json :=
  match j with
  | JObj m =>
      match m !! key with
      | Some v => Ok v
      | None => Raise KeyError
      end
  | _ => Raise TypeError
  end.

(** [d.get(key, dflt)] on a [dict]. *)
Definition dict_get (d : gmap string json) (key : string) (dflt : json) : json :=
  default dflt (d !! key).

(** [d[key]] on a [dict]. *)
Definition dict_getitem (d : gmap string json) (key : string) : result json :=
  json_getitem (JObj d) key.

(** The items a [for] loop draws from a decoded value. *)
Definition json_iter (j : json) : result (list json) :=
  match j with
  | JArr l => Ok l
  | JObj m => Ok (map (λ kv, JStr kv.1) (map_to_list m))
  | JStr s => Ok (map (λ c, JStr (String c "")) (list_ascii_of_string s))
  | _ => Raise TypeError
  end.

(** [j == 0] *)
Definition json_eq_zero (j : json) : bool :=
  match j with
  | JInt n => n =? 0
  | JBool b => negb b
  | _ => false
  end.

(** [parse_iso8601(j)]: slicing anything but a string is a [TypeError]. *)
Definition parse_iso8601_json (j : json) : result datetime :=
  match j with
  | JStr s => parse_iso8601 s
  | _ => Raise TypeError
  end.

(** ** Entities *)

(** [Struct.__init__(self, **params)]: the instance dictionary is [params]. *)
Definition Struct_init (params : gmap string json) : gmap string json := params.

(** A Thread: the attributes copied by [Struct], and those [__init__]
    assigns after them. *)
Record Thread : Type := mk_Thread {
  thread_dict : gmap string json;
  site_section : json;
  section_title : json;
  title_full : json;
  thread_published_parsed : datetime;
  country : json
}.

(** A call of [Thread] with positional arguments [args] and keyword
    arguments [thread]: [__init__(self, **thread)] accepts no positional
    argument besides [self], and no keyword named [self]. *)
Definition Thread_init (args : list json) (thread : gmap string json)
  : result Thread :=
  match args with
  | _ :: _ => Raise TypeError
  | [] =>
      if bool_decide (is_Some (thread !! "self")) then Raise TypeError else
      let self := Struct_init thread in
      let site_section := dict_get thread "site_section" JNull in
      let section_title := dict_get thread "section_title" JNull in
      title ← match self !! "title" with
              | Some t => Ok t
              | None => Raise AttributeError
              end;
      let title_full := dict_get thread "title_full" title in
      published ← dict_getitem thread "published";
      published_parsed ← parse_iso8601_json published;
      let country := dict_get thread "country" JNull in
      Ok (mk_Thread self site_section section_title title_full
                    published_parsed country)
  end.

Record Post : Type := mk_Post {
  post_dict : gmap string json;
  published_parsed : datetime;
  crawled_parsed : datetime;
  external_links : json;
  persons : json;
  locations : json;
  organizations : json;
  thread : Thread
}.

(** A call of [Post] with positional arguments [args] and keyword
    arguments [post]. *)
Definition Post_init (args : list json) (post : gmap string json)
  : result Post :=
  match args with
  | _ :: _ => Raise TypeError
  | [] =>
      if bool_decide (is_Some (post !! "self")) then Raise TypeError else
      let self := Struct_init post in
      published ← dict_getitem post "published";
      published_parsed ← parse_iso8601_json published;
      crawled ← dict_getitem post "crawled";
      crawled_parsed ← parse_iso8601_json crawled;
      let external_links := dict_get post "external_links" JNull in
      entities ← dict_getitem post "entities";
      persons ← json_getitem entities "persons";
      entities ← dict_getitem post "entities";
      locations ← json_getitem entities "locations";
      entities ← dict_getitem post "entities";
      organizations ← json_getitem entities "organizations";
      th ← dict_getitem post "thread";
      thread ← Thread_init [th] ∅;
      Ok (mk_Post self published_parsed crawled_parsed external_links
                  persons locations organizations thread)
  end.

(** ** Session and Response *)

(** What the HTTP client hands back: the final URL, the status code, the
    body text, and the body decoded as JSON ([None] when it does not
    decode, which makes [.json()] raise [ValueError]). *)
Record http_response : Type := mk_http_response {
  url : string;
  status_code : Z;
  text : string;
  body : option json
}.

Definition http_json (r : http_response) : result json :=
  match body r with
  | Some j => Ok j
  | None => Raise ValueError
  end.

(** A Session is its token; its [requests.Session] lives in the world the
    HTTP primitive acts on. *)
Record Session : Type := mk_Session { token : value }.

Record Response : Type := mk_Response {
  response : http_response;
  session : Session;
  total : json;
  next : string;
  next_ts : string;
  left : json;
  more : json;
  posts : list Post
}.

(** Attribute assignments [self.<field> = v] on a Response. *)
Definition set_total (self : Response) (v : json) : Response :=
  mk_Response (response self) (session self) v (next self) (next_ts self)
              (left self) (more self) (posts self).
Definition set_next (self : Response) (v : string) : Response :=
  mk_Response (response self) (session self) (total self) v (next_ts self)
              (left self) (more self) (posts self).
Definition set_next_ts (self : Response) (v : string) : Response :=
  mk_Response (response self) (session self) (total self) (next self) v
              (left self) (more self) (posts self).
Definition set_left (self : Response) (v : json) : Response :=
  mk_Response (response self) (session self) (total self) (next self)
              (next_ts self) v (more self) (posts self).
Definition set_more (self : Response) (v : json) : Response :=
  mk_Response (response self) (session self) (total self) (next self)
              (next_ts self) (left self) v (posts self).
Definition set_posts (self : Response) (v : list Post) : Response :=
  mk_Response (response self) (session self) (total self) (next self)
              (next_ts self) (left self) (more self) v.

(** The [query] argument of [search]: a Query instance or anything else. *)
Inductive query_arg : Type :=
  | QQuery (q : gmap string value)
  | QOther (v : value).

(** The events of a run: what a caller of the iterator and the network
    observe. *)
Inductive event : Type :=
  | EvYield (p : Post)
  | EvGet (target : string).

(** The local variable [response] of the generator: the iterated object
    itself, or a page fetched later (never mutated after construction). *)
Inductive resp_ref : Type :=
  | RefSelf
  | RefOther (r : Response).

(** Where the generator body stands: not started, inside the [for] loop
    with the posts still to yield, or finished. *)
Inductive gen_pc : Type :=
  | PcStart
  | PcFor (pending : list Post)
  | PcDone (raised : option exn).

Record gen : Type := mk_gen {
  gen_self : Response;
  gen_response : resp_ref;
  gen_pc_of : gen_pc
}.

Section Session.

Variables LIST_FIELDS DIRECT_FIELDS : list string.

(** The standard library and [requests] are outside the sources. *)
Variable urljoin : string → json → lib_result string.
Variable urlparse_query : json → lib_result string.
Variable parse_qs : string → gmap string (list string).
Variable world : Type.
Variable requests_get :
  string → gmap string value → world → lib_result http_response * world.

Definition extract_next_ts (resp : http_response) : result string :=
  j ← http_json resp;
  resource ← json_getitem j "next";
  query ← lift_lib (urlparse_query resource);
  let params := parse_qs query in
  match params !! "ts" with
  | None => Raise KeyError
  | Some [] => Raise IndexError
  | Some (ts :: _) => Ok ts
  end.

Definition Response_init (resp : http_response) (sess : Session)
  : result Response :=
  j ← http_json resp;
  total ← json_getitem j "totalResults";
  j ← http_json resp;
  nx ← json_getitem j "next";
  next ← lift_lib (urljoin (url resp) nx);
  next_ts ← extract_next_ts resp;
  j ← http_json resp;
  left ← json_getitem j "requestsLeft";
  j ← http_json resp;
  more ← json_getitem j "moreResultsAvailable";
  j ← http_json resp;
  raw ← json_getitem j "posts";
  items ← json_iter raw;
  posts ← result_mapM (λ post, Post_init [post] ∅) items;
  Ok (mk_Response resp sess total next next_ts left more posts).

Definition Session_get (self : Session) (target : string) (w : world)
  : result Response * world :=
  match requests_get target ∅ w with
  | (LibOk resp, w') => (Response_init resp self, w')
  | (LibRaise cls, w') => (Raise (LibraryError cls), w')
  end.

(** [if type(query) is Query: query = query.query_string()] *)
Definition search_query (query : query_arg) : result value :=
  match query with
  | QQuery q => VStr <$> query_string LIST_FIELDS DIRECT_FIELDS q
  | QOther v => Ok v
  end.

(** The [params] dictionary of [search]; [tok or self.token] is the first
    of the two that is true, else the second. *)
Definition search_params (self : Session) (q tok since : value)
  : gmap string value :=
  let params : gmap string value :=
    <["token" := if truthy tok then tok else token self]> (<["q" := q]> ∅) in
  if truthy since then <["ts" := since]> params else params.

Definition Session_search (self : Session) (query : query_arg)
    (tok since : value) (w : world) : result Response * world :=
  match tok, token self with
  | VNone, VNone =>
      (Raise (TokenMissingException "No token defined for webhose API request"), w)
  | _, _ =>
      match search_query query with
      | Raise e => (Raise e, w)
      | Ok q =>
          let params := search_params self q tok since in
          match requests_get "http://webhose.io/search" params w with
          | (LibRaise cls, w') => (Raise (LibraryError cls), w')
          | (LibOk resp, w') =>
              if negb (status_code resp =? 200) then (Raise (Exception (text resp)), w')
              else (Response_init resp self, w')
          end
      end
  end.

Definition get_next (self : Response) (w : world) : result Response * world :=
  Session_get (session self) (next self) w.

(** *** [Response.__iter__] as a step function *)

Definition gen_current (g : gen) : Response :=
  match gen_response g with
  | RefSelf => gen_self g
  | RefOther r => r
  end.

(** [iter(self)]: the body has not started. *)
Definition Response_iter (self : Response) : gen := mk_gen self RefSelf PcStart.

(** One step of the body, up to its next observable point. *)
Definition gen_step (g : gen) (w : world) : list event * gen * world :=
  match gen_pc_of g with
  | PcStart =>
      ([], mk_gen (gen_self g) RefSelf (PcFor (posts (gen_self g))), w)
  | PcFor (post :: pending) =>
      ([EvYield post], mk_gen (gen_self g) (gen_response g) (PcFor pending), w)
  | PcFor [] =>
      let cur := gen_current g in
      if json_eq_zero (more cur) then
        ([], mk_gen (gen_self g) (gen_response g) (PcDone None), w)
      else
        match get_next cur w with
        | (Raise e, w') =>
            ([EvGet (next cur)],
             mk_gen (gen_self g) (gen_response g) (PcDone (Some e)), w')
        | (Ok r, w') =>
            let self := gen_self g in
            let self := set_total self (total r) in
            let self := set_next self (next r) in
            let self := set_left self (left r) in
            let self := set_more self (more r) in
            let self := set_posts self (posts r) in
            let self := set_next_ts self (next_ts r) in
            ([EvGet (next cur)], mk_gen self (RefOther r) (PcFor (posts r)), w')
        end
  | PcDone _ => ([], g, w)
  end.

(** The events of at most [fuel] steps, with the state they end in. *)
Fixpoint gen_run (fuel : nat) (g : gen) (w : world) : list event * gen * world :=
  match fuel with
  | O => ([], g, w)
  | S fuel' =>
      match gen_pc_of g with
      | PcDone _ => ([], g, w)
      | _ =>
          let '(evs, g', w') := gen_step g w in
          let '(evs', g'', w'') := gen_run fuel' g' w' in
          (evs ++ evs', g'', w'')
      end
  end.

End Session.

(** ** The rendering as the specification words it *)

(** The words of [s] between occurrences of [sep]. *)
Fixpoint split_char (sep : ascii) (s : string) : list string :=
  match s with
  | EmptyString => [""]
  | String c s' =>
      if Ascii.eqb c sep then "" :: split_char sep s'
      else match split_char sep s' with
           | w :: ws => String c w :: ws
           | [] => [String c ""]
           end
  end.

(** [(field:v1 OR field:v2 ...)] *)
Definition or_group (field : string) (l : list string) : string :=
  "(" +:+ String.concat " OR " (map (λ x, field +:+ ":" +:+ x) l) +:+ ")".

Definition list_items (v : value) : list string :=
  match v with VList l => l | _ => [] end.

(** Steps 1 to 9: a field and the clause its value gives. *)
Definition named_slots : list (string * (value → string)) :=
  [ ("all_terms", py_str);
    ("exact_phrase", λ v, String dquote (py_str v) +:+ String dquote "");
    ("some_terms",
      λ v, "(" +:+ String.concat " OR " (split_char " " (py_str v)) +:+ ")");
    ("exclude", λ v, "-" +:+ py_str v);
    ("is_first", λ _, "is_first:true");
    ("thread_title", λ v, "thread.title:(" +:+ py_str v +:+ ")");
    ("thread_section_title", λ v, "thread.section_title:(" +:+ py_str v +:+ ")");
    ("language", λ v, "language:(" +:+ py_str v +:+ ")");
    ("thread_country", λ v, "thread.country:" +:+ py_str v) ].

(** Step 10 and step 11 for one field of the tables. *)
Definition direct_slot (f : string) : string * (value → string) :=
  (f, λ v, f +:+ ":" +:+ py_str v).
Definition list_slot (f : string) : string * (value → string) :=
  (f, λ v, or_group f (list_items v)).

(** The clause of a slot: none unless the field holds a true value. *)
Definition spec_clause (self : gmap string value)
    (sl : string * (value → string)) : list string :=
  match self !! sl.1 with
  | Some v => if truthy v then [sl.2 v] else []
  | None => []
  end.

Definition str_or_falsy (v : value) : bool := negb (truthy v) || is_basestring v.
Definition list_or_falsy (v : value) : bool :=
  negb (truthy v) || match v with VList _ => true | _ => false end.
Definition attr_ok (ok : value → bool) (self : gmap string value) (f : string)
  : bool :=
  match self !! f with Some v => ok v | None => false end.

(** A value as the rendering tests it: anything false counts as [None]. *)
Definition norm_falsy (v : value) : value := if truthy v then v else VNone.

(** How often [f] is listed in a table. *)
Definition occurrences (f : string) (l : list string) : nat :=
  length (List.filter (String.eqb f) l).

Section QuerySpec.

Variables ALL_FIELDS LIST_FIELDS DIRECT_FIELDS : list string.

(** The value [__setattr__] stores under [name] when given [v]. *)
Definition stored (name : string) (v : value) : value :=
  default VNone (Query_setattr LIST_FIELDS ∅ name v !! name).

(** The fixed order of the clauses. *)
Definition spec_slots : list (string * (value → string)) :=
  named_slots ++ map direct_slot DIRECT_FIELDS ++ map list_slot LIST_FIELDS.

Definition spec_query_string (self : gmap string value) : string :=
  String.concat " " (flat_map (spec_clause self) spec_slots).

(** A Query whose attributes all exist and hold values of their kind: text
    (or nothing) in the two free-text fields the code handles as strings,
    a list (or nothing) in every list field. *)
Definition wf_query (self : gmap string value) : bool :=
  forallb (attr_ok str_or_falsy self) ["all_terms"; "some_terms"]
  && forallb (attr_ok (λ _, true) self) (map fst named_slots)
  && forallb (attr_ok (λ _, true) self) DIRECT_FIELDS
  && forallb (attr_ok list_or_falsy self) LIST_FIELDS.

(** Settings under which the constructor creates every attribute that
    [query_string] reads. *)
Definition settings_cover : bool :=
  forallb (λ f, bool_decide (f ∈ ALL_FIELDS))
          (map fst named_slots ++ DIRECT_FIELDS ++ LIST_FIELDS).

End QuerySpec.

(** ** Exceptions a computation can end in *)

(** [r] can only raise exceptions satisfying [P]. *)
Definition raises_only {A} (P : exn → Prop) (r : result A) : Prop :=
  ∀ e, r = Raise e → P e.

Definition not_token_missing (e : exn) : Prop :=
  match e with TokenMissingException _ => False | _ => True end.

Definition attribute_or_type_error (e : exn) : Prop :=
  e = AttributeError ∨ e = TypeError.

Definition value_error (e : exn) : Prop := e = ValueError.

(** ** ASCII text *)

Fixpoint ascii_string (s : string) : bool :=
  match s with
  | EmptyString => true
  | String c s' => (N_of_ascii c <? 128)%N && ascii_string s'
  end.

Definition ascii_value (v : value) : bool :=
  match v with
  | VStr s => ascii_string s
  | VList l => forallb ascii_string l
  | _ => true
  end.

(** ** Timestamps as the API writes them *)

Definition digit_char (d : Z) : ascii := ascii_of_N (Z.to_N (48 + d)).

(** [n] on two and on four decimal digits. *)
Definition pad2 (n : Z) : string :=
  String (digit_char (n / 10)) (String (digit_char (n mod 10)) "").
Definition pad4 (n : Z) : string :=
  String (digit_char (n / 1000)) (String (digit_char (n / 100 mod 10))
    (pad2 (n mod 100))).

(** [YYYY-MM-DDTHH:MM:SS] *)
Definition isoformat (dt : datetime) : string :=
  pad4 (year dt) +:+ "-" +:+ pad2 (month dt) +:+ "-" +:+ pad2 (day dt) +:+ "T"
  +:+ pad2 (hour dt) +:+ ":" +:+ pad2 (minute dt) +:+ ":" +:+ pad2 (second dt).

(** The local time [dt], four characters of fraction, then the offset:
    a sign character, two digits of hours, a separator, two of minutes. *)
Definition timestamp_text (dt : datetime) (frac : string) (sign : ascii)
    (oh : Z) (sep : ascii) (om : Z) : string :=
  isoformat dt +:+ frac +:+ String sign (pad2 oh +:+ String sep (pad2 om)).

(** The fields of [dt] pass the checks of the [datetime] constructor. *)
Definition valid_datetime (dt : datetime) : bool :=
  match datetime_new (year dt) (month dt) (day dt) (hour dt) (minute dt)
                     (second dt) with
  | Ok _ => true
  | Raise _ => false
  end.

(** The last steps of [ord2ymd]: month and day of the day numbered [n],
    from 0, within its year. *)
Definition month_day (n : Z) (leapyear : bool) : Z * Z :=
  let m := Z.shiftr (n + 50) 5 in
  let preceding := DAYS_BEFORE_MONTH m + (if (2 <? m) && leapyear then 1 else 0) in
  if n <? preceding then
    let m := m - 1 in
    let preceding :=
      preceding - (DAYS_IN_MONTH m + (if (m =? 2) && leapyear then 1 else 0)) in
    (m, n - preceding + 1)
  else (m, n - preceding + 1).

(** What [month_day] has to give: a day of a month, at the right distance
    from the start of the year. *)
Definition month_day_ok (leapyear : bool) (n : Z) : bool :=
  let '(m, d) := month_day n leapyear in
  (1 <=? m) && (m <=? 12) && (1 <=? d)
  && (d <=? DAYS_IN_MONTH m + (if (m =? 2) && leapyear then 1 else 0))
  && (DAYS_BEFORE_MONTH m + (if (2 <? m) && leapyear then 1 else 0) + d =? n + 1).

(** The alternatives of a directive. *)
Definition alts_of (d : ascii) : list (list cclass) :=
  match directive d with
  | Some (_, alts) => alts
  | None => []
  end.

(** The first alternative that matches at the start of [cap] matches all
    of it. *)
Fixpoint first_full_match (alts : list (list cclass)) (cap : string) : bool :=
  match alts with
  | [] => false
  | a :: alts' =>
      match match_alt a cap with
      | Some (_, rest) => String.eqb rest ""
      | None => first_full_match alts' cap
      end
  end.

(** ** Sample data to run the model on *)

(** Tables of the shape [settings.py] has. *)
Definition sample_LIST_FIELDS : list string := ["site"; "person"; "organization"].
Definition sample_DIRECT_FIELDS : list string := ["author"; "site_type"].
Definition sample_ALL_FIELDS : list string :=
  map fst named_slots ++ sample_DIRECT_FIELDS ++ sample_LIST_FIELDS.

(** Stand-ins for [urljoin], [urlparse(...).query] and [parse_qs] on
    absolute links with at most the one parameter [ts]. *)
Definition sample_urljoin (base : string) (u : json) : lib_result string :=
  match u with
  | JStr s => LibOk s
  | JNull => LibOk base
  | _ => LibRaise "AttributeError"
  end.

Fixpoint after_char (c : ascii) (s : string) : string :=
  match s with
  | EmptyString => ""
  | String d s' => if Ascii.eqb d c then s' else after_char c s'
  end.

Definition sample_urlparse_query (u : json) : lib_result string :=
  match u with
  | JStr s => LibOk (after_char "?" s)
  | _ => LibRaise "AttributeError"
  end.

Definition sample_parse_qs (q : string) : gmap string (list string) :=
  if String.prefix "ts=" q
  then {["ts" := [String.substring 3 (String.length q - 3) q]]}
  else ∅.

(** A network that answers every request with [page] and records the
    request. *)
Definition sample_world : Type := list (string * gmap string value).
Definition sample_requests_get (page : http_response) (target : string)
    (params : gmap string value) (w : sample_world)
  : lib_result http_response * sample_world :=
  (LibOk page, w ++ [(target, params)]).

(** A page of results without posts. *)
Definition sample_page (status : Z) (nxt : option json) (more : Z) : http_response :=
  let fields : gmap string json :=
    <["totalResults" := JInt 7]> (<["requestsLeft" := JInt 99]>
      (<["moreResultsAvailable" := JInt more]> {["posts" := JArr []]})) in
  mk_http_response "http://webhose.io/search?q=cats" status "body text"
    (Some (JObj (match nxt with
                 | Some n => <["next" := n]> fields
                 | None => fields
                 end))).

Definition sample_thread : Thread :=
  mk_Thread ∅ JNull JNull (JStr "title") (mk_datetime 2016 6 1 7 0 0) JNull.
Definition sample_post (n : Z) : Post :=
  mk_Post {["uuid" := JInt n]} (mk_datetime 2016 6 1 7 0 0)
          (mk_datetime 2016 6 1 8 0 0) JNull JNull JNull JNull sample_thread.

(** ** The module-level session and its functions *)

(** [Session(token=None)] *)
Definition Session_init (tok : value) : Session := mk_Session tok.

(** [__session = Session()] *)
Definition module_session : Session := Session_init VNone.

(** [config(token)]: [__session.token = token], on the state of the shared
    session. *)
Definition config (tok : value) (shared : Session) : Session := mk_Session tok.

Section ModuleLevel.

Variables LIST_FIELDS DIRECT_FIELDS : list string.
Variable urljoin : string → json → lib_result string.
Variable urlparse_query : json → lib_result string.
Variable parse_qs : string → gmap string (list string).
Variable world : Type.
Variable requests_get :
  string → gmap string value → world → lib_result http_response * world.

(** The module functions [search(query, token, since)] and [get(url)], on
    the state [shared] of [__session]. *)
Definition module_search (shared : Session) (query : query_arg)
    (tok since : value) (w : world) : result Response * world :=
  Session_search LIST_FIELDS DIRECT_FIELDS urljoin urlparse_query parse_qs world
    requests_get shared query tok since w.

Definition module_get (shared : Session) (target : string) (w : world)
  : result Response * world :=
  Session_get urljoin urlparse_query parse_qs world requests_get shared target w.

(** [Query.__str__] *)
Definition Query_str (self : gmap string value) : result string :=
  query_string LIST_FIELDS DIRECT_FIELDS self.

(** *** What an iteration goes through *)

(** The six assignments of [__iter__] after a fetch. *)
Definition turn_page (self r : Response) : Response :=
  set_next_ts (set_posts (set_more (set_left (set_next (set_total self (total r))
    (next r)) (left r)) (more r)) (posts r)) (next_ts r).

(** The pages that follow [cur]: each is what [get_next] returns on the one
    before, the last is the first to report no more results. *)
Inductive page_chain : Response → world → list Response → world → Prop :=
  | page_chain_last (cur : Response) (w : world) :
      json_eq_zero (more cur) = true → page_chain cur w [] w
  | page_chain_next (cur r : Response) (w w' w'' : world) (rest : list Response) :
      json_eq_zero (more cur) = false →
      get_next urljoin urlparse_query parse_qs world requests_get cur w = (Ok r, w') →
      page_chain r w' rest w'' →
      page_chain cur w (r :: rest) w''.

End ModuleLevel.




(** *** Bounds on what a format can match *)

Definition alts_max_len (alts : list (list cclass)) : nat :=
  foldr (λ a n, Nat.max (length a) n) 0%nat alts.

Definition items_max_len (items : list item) : nat :=
  foldr (λ it n, (alts_max_len it.2 + n)%nat) 0%nat items.

(** A date of the calendar of [datetime]. *)
Definition valid_date (y m d : Z) : Prop :=
  1 ≤ y ≤ 9999 ∧ 1 ≤ m ≤ 12 ∧ 1 ≤ d ≤ days_in_month y m.

(** * Properties of the query builder *)

Lemma bind_Ok {A B} (a : A) (f : A → result B) : (Ok a ≫= f) = f a.
Proof. reflexivity. Qed.

Lemma as_strs_VStr (l : list string) : as_strs (map VStr l) = Ok l.
Proof. induction l as [|x l IH]; simpl; [done|]. by rewrite IH. Qed.

Lemma py_join_VStr (sep : string) (l : list string) :
  py_join sep (map VStr l) = Ok (String.concat sep l).
Proof. unfold py_join. by rewrite as_strs_VStr. Qed.

Lemma split_char_cons (sep : ascii) (s : string) :
  ∃ w ws, split_char sep s = w :: ws.
Proof.
  destruct s as [|c s]; simpl; [by eexists _, _|].
  destruct (Ascii.eqb c sep); [by eexists _, _|].
  destruct (split_char sep s); by eexists _, _.
Qed.

Lemma string_app_assoc (a b c : string) : (a +:+ b) +:+ c = a +:+ (b +:+ c).
Proof. induction a as [|x a IH]; simpl; [done|]. by rewrite IH. Qed.

(** Replacing a character is splitting on it and joining with the
    replacement. *)
Lemma str_replace1_split (sep : ascii) (new s : string) :
  str_replace1 sep new s = String.concat new (split_char sep s).
Proof.
  induction s as [|c s IH]; simpl; [done|].
  destruct (split_char_cons sep s) as (w & ws & Hs).
  rewrite IH, Hs. destruct (Ascii.eqb c sep); simpl.
  - done.
  - destruct ws; simpl; done.
Qed.

(** Membership in an explicit list. *)
Ltac in_list :=
  simpl; repeat first [apply list_elem_of_here | apply list_elem_of_further].

Section QueryTheory.

Context (ALL_FIELDS LIST_FIELDS DIRECT_FIELDS : list string).
Implicit Types (self : gmap string value) (f : string) (v : value).

Lemma append_if_spec self f term render (acc : list string) v :
  self !! f = Some v →
  (truthy v = true → term v = Ok (VStr (render v))) →
  append_if self f term (map VStr acc)
  = Ok (map VStr (acc ++ spec_clause self (f, render))).
Proof.
  intros Hf Hterm. unfold append_if, getattr, spec_clause. simpl. rewrite Hf. simpl.
  destruct (truthy v) eqn:Ht.
  - rewrite Hterm by done. simpl. by rewrite map_app.
  - by rewrite app_nil_r.
Qed.

Lemma direct_string_Some self f v :
  self !! f = Some v → direct_string self f = Ok (f +:+ ":" +:+ py_str v).
Proof. intros Hf. unfold direct_string, getattr. by rewrite Hf. Qed.

Lemma direct_fields_spec self (fields : list string) :
  forallb (attr_ok (λ _, true) self) fields = true →
  (filter_set self fields ≫= result_mapM (direct_string self))
  = Ok (flat_map (spec_clause self) (map direct_slot fields)).
Proof.
  induction fields as [|x fields IH]; simpl; [done|].
  intros [Hx Hrest]%andb_prop. specialize (IH Hrest).
  unfold attr_ok in Hx. unfold getattr at 1. unfold spec_clause at 1. simpl.
  destruct (self !! x) as [v|] eqn:Hv; [|done]. simpl.
  destruct (filter_set self fields) as [keep|e]; simpl in *; [|done].
  destruct (truthy v) eqn:Ht; simpl; [|done].
  rewrite (direct_string_Some self x v Hv). simpl. by rewrite IH.
Qed.

Lemma list_string_VList self f (l : list string) :
  self !! f = Some (VList l) → list_string self f = Ok (or_group f l).
Proof.
  intros Hf. unfold list_string, getattr. rewrite Hf. simpl.
  rewrite map_map. simpl.
  change (map (λ x, VStr (f +:+ ":" +:+ x)) l)
    with (map (λ x, VStr ((λ y, f +:+ ":" +:+ y) x)) l).
  rewrite <- (map_map (λ y, f +:+ ":" +:+ y) VStr), py_join_VStr. done.
Qed.

Lemma list_fields_spec self (fields : list string) :
  forallb (attr_ok list_or_falsy self) fields = true →
  (filter_set self fields ≫= result_mapM (list_string self))
  = Ok (flat_map (spec_clause self) (map list_slot fields)).
Proof.
  induction fields as [|x fields IH]; simpl; [done|].
  intros [Hx Hrest]%andb_prop. specialize (IH Hrest).
  unfold attr_ok in Hx. unfold getattr at 1. unfold spec_clause at 1. simpl.
  destruct (self !! x) as [v|] eqn:Hv; [|done]. simpl.
  destruct (filter_set self fields) as [keep|e]; simpl in *; [|done].
  destruct (truthy v) eqn:Ht; simpl; [|done].
  unfold list_or_falsy in Hx. rewrite Ht in Hx. simpl in Hx.
  destruct v as [| | | |l]; try done.
  rewrite (list_string_VList self x l Hv). simpl. by rewrite IH.
Qed.

Lemma wf_query_named self :
  wf_query LIST_FIELDS DIRECT_FIELDS self = true →
  ∀ f, f ∈ map fst named_slots → is_Some (self !! f).
Proof.
  unfold wf_query. intros Hwf f Hf.
  apply andb_prop in Hwf as [[[_ Hnamed]%andb_prop _]%andb_prop _].
  rewrite forallb_forall in Hnamed. apply list_elem_of_In in Hf.
  specialize (Hnamed f Hf). unfold attr_ok in Hnamed.
  by destruct (self !! f).
Qed.

Lemma wf_query_text self f :
  wf_query LIST_FIELDS DIRECT_FIELDS self = true →
  f ∈ ["all_terms"; "some_terms"] →
  ∃ v, self !! f = Some v ∧ (truthy v = true → ∃ s, v = VStr s).
Proof.
  unfold wf_query. intros Hwf Hf.
  apply andb_prop in Hwf as [[[Htext _]%andb_prop _]%andb_prop _].
  rewrite forallb_forall in Htext. apply list_elem_of_In in Hf.
  specialize (Htext f Hf). unfold attr_ok in Htext.
  destruct (self !! f) as [v|]; [|done]. exists v. split; [done|].
  intros Ht. unfold str_or_falsy in Htext. rewrite Ht in Htext. simpl in Htext.
  destruct v; try done. by eexists.
Qed.

(** The source and the specification's rendering agree on every
    well-formed Query. *)
Lemma query_string_refines self :
  wf_query LIST_FIELDS DIRECT_FIELDS self = true →
  query_string LIST_FIELDS DIRECT_FIELDS self
  = Ok (spec_query_string LIST_FIELDS DIRECT_FIELDS self).
Proof.
  intros Hwf.
  pose proof (wf_query_named self Hwf) as Hnamed.
  destruct (wf_query_text self "all_terms" Hwf) as (v1 & H1 & T1); [in_list|].
  destruct (wf_query_text self "some_terms" Hwf) as (v3 & H3 & T3); [in_list|].
  destruct (Hnamed "exact_phrase") as [v2 H2]; [in_list|].
  destruct (Hnamed "exclude") as [v4 H4]; [in_list|].
  destruct (Hnamed "is_first") as [v5 H5]; [in_list|].
  destruct (Hnamed "thread_title") as [v6 H6]; [in_list|].
  destruct (Hnamed "thread_section_title") as [v7 H7]; [in_list|].
  destruct (Hnamed "language") as [v8 H8]; [in_list|].
  destruct (Hnamed "thread_country") as [v9 H9]; [in_list|].
  unfold wf_query in Hwf.
  apply andb_prop in Hwf as [[_ Hdirect]%andb_prop Hlist].
  unfold query_string, spec_query_string, spec_slots.
  change (@nil value) with (map VStr []).
  rewrite (append_if_spec self "all_terms" _ py_str _ v1 H1); cycle 1.
  { intros Ht. destruct (T1 Ht) as [s ->]. done. }
  rewrite bind_Ok.
  rewrite (append_if_spec self "exact_phrase" _
             (λ v, String dquote (py_str v) +:+ String dquote "") _ v2 H2);
    [|done].
  rewrite bind_Ok.
  rewrite (append_if_spec self "some_terms" _
             (λ v, "(" +:+ String.concat " OR " (split_char " " (py_str v)) +:+ ")")
             _ v3 H3); cycle 1.
  { intros Ht. destruct (T3 Ht) as [s ->]. simpl.
    by rewrite str_replace1_split. }
  rewrite bind_Ok.
  rewrite (append_if_spec self "exclude" _ (λ v, "-" +:+ py_str v) _ v4 H4);
    [|done].
  rewrite bind_Ok.
  rewrite (append_if_spec self "is_first" _ (λ _, "is_first:true") _ v5 H5);
    [|done].
  rewrite bind_Ok.
  rewrite (append_if_spec self "thread_title" _
             (λ v, "thread.title:(" +:+ py_str v +:+ ")") _ v6 H6); [|done].
  rewrite bind_Ok.
  rewrite (append_if_spec self "thread_section_title" _
             (λ v, "thread.section_title:(" +:+ py_str v +:+ ")") _ v7 H7); [|done].
  rewrite bind_Ok.
  rewrite (append_if_spec self "language" _
             (λ v, "language:(" +:+ py_str v +:+ ")") _ v8 H8); [|done].
  rewrite bind_Ok.
  rewrite (append_if_spec self "thread_country" _
             (λ v, "thread.country:" +:+ py_str v) _ v9 H9); [|done].
  rewrite bind_Ok.
  pose proof (direct_fields_spec self DIRECT_FIELDS Hdirect) as Hd.
  destruct (filter_set self DIRECT_FIELDS) as [keep|e] eqn:Ek;
    rewrite ?Ek in Hd; [|done].
  rewrite bind_Ok. change (Ok keep ≫= ?f) with (f keep) in Hd.
  rewrite Hd, bind_Ok.
  pose proof (list_fields_spec self LIST_FIELDS Hlist) as Hl.
  destruct (filter_set self LIST_FIELDS) as [keepl|e] eqn:El;
    rewrite ?El in Hl; [|done].
  rewrite bind_Ok. change (Ok keepl ≫= ?f) with (f keepl) in Hl.
  rewrite Hl, bind_Ok.
  rewrite <- !map_app, py_join_VStr. do 2 f_equal.
  rewrite !flat_map_app.
  set (d := flat_map _ (map direct_slot _)). set (l := flat_map _ (map list_slot _)).
  unfold named_slots. cbn [flat_map].
  rewrite app_nil_r, ?app_nil_l, <- !app_assoc. done.
Qed.

(** *** The constructor *)

Lemma Query_setattr_insert self f v :
  Query_setattr LIST_FIELDS self f v = <[f := stored LIST_FIELDS f v]> self.
Proof.
  unfold stored, Query_setattr. by rewrite lookup_insert_eq.
Qed.

Lemma stored_not_str f v : is_basestring v = false → stored LIST_FIELDS f v = v.
Proof.
  intros Hv. unfold stored, Query_setattr. rewrite lookup_insert_eq.
  by destruct v.
Qed.

Lemma stored_scalar f v : f ∉ LIST_FIELDS → stored LIST_FIELDS f v = v.
Proof.
  intros Hf. unfold stored, Query_setattr. rewrite lookup_insert_eq.
  destruct v; try done. simpl. by rewrite bool_decide_eq_false_2.
Qed.

Lemma stored_list_str f (s : string) :
  f ∈ LIST_FIELDS → stored LIST_FIELDS f (VStr s) = VList [s].
Proof.
  intros Hf. unfold stored, Query_setattr. rewrite lookup_insert_eq.
  simpl. by rewrite bool_decide_eq_true_2.
Qed.

Lemma foldl_setattr_lookup (kwargs self : gmap string value) (l : list string) f :
  foldl (λ self name,
           Query_setattr LIST_FIELDS self name (default VNone (kwargs !! name)))
        self l !! f
  = if bool_decide (f ∈ l)
    then Some (stored LIST_FIELDS f (default VNone (kwargs !! f)))
    else self !! f.
Proof.
  revert self. induction l as [|x l IH]; intros self; simpl.
  - done.
  - rewrite IH. destruct (decide (f ∈ l)) as [Hin|Hnin].
    + rewrite !bool_decide_eq_true_2; [done| |done]. by apply list_elem_of_further.
    + rewrite (bool_decide_eq_false_2 (f ∈ l)) by done.
      rewrite Query_setattr_insert.
      destruct (decide (x = f)) as [->|Hne].
      * rewrite lookup_insert_eq, bool_decide_eq_true_2; [done|].
        apply list_elem_of_here.
      * rewrite lookup_insert_ne by done.
        rewrite bool_decide_eq_false_2; [done|].
        rewrite elem_of_cons. intros [?|?]; done.
Qed.

Lemma Query_init_lookup (kwargs : gmap string value) f :
  Query_init ALL_FIELDS LIST_FIELDS kwargs !! f
  = if bool_decide (f ∈ ALL_FIELDS)
    then Some (stored LIST_FIELDS f (default VNone (kwargs !! f)))
    else None.
Proof.
  unfold Query_init. rewrite foldl_setattr_lookup.
  by rewrite lookup_empty.
Qed.

(** A filter missing from the keyword arguments, or passed as [None], is
    stored as [None]. *)
Lemma Query_init_unset (kwargs : gmap string value) f :
  f ∈ ALL_FIELDS →
  default VNone (kwargs !! f) = VNone →
  Query_init ALL_FIELDS LIST_FIELDS kwargs !! f = Some VNone.
Proof.
  intros Hf Hk. rewrite Query_init_lookup, bool_decide_eq_true_2 by done.
  by rewrite Hk, stored_not_str.
Qed.

Lemma settings_cover_elem f :
  settings_cover ALL_FIELDS LIST_FIELDS DIRECT_FIELDS = true →
  f ∈ map fst named_slots ++ DIRECT_FIELDS ++ LIST_FIELDS →
  f ∈ ALL_FIELDS.
Proof.
  unfold settings_cover. rewrite forallb_forall. intros Hall Hf.
  apply list_elem_of_In in Hf. specialize (Hall f Hf).
  by apply bool_decide_eq_true in Hall.
Qed.

Lemma forallb_elem_of {A} (p : A → bool) (l : list A) :
  (∀ x, x ∈ l → p x = true) → forallb p l = true.
Proof.
  intros H. apply forallb_forall. intros x Hx. apply H.
  by apply list_elem_of_In.
Qed.

(** The constructor yields a well-formed Query when the values passed for
    the free-text and the list filters are of their kind. *)
Lemma wf_Query_init (kwargs : gmap string value) :
  settings_cover ALL_FIELDS LIST_FIELDS DIRECT_FIELDS = true →
  (∀ f, f ∈ ["all_terms"; "some_terms"] →
        str_or_falsy (stored LIST_FIELDS f (default VNone (kwargs !! f))) = true) →
  (∀ f, f ∈ LIST_FIELDS →
        list_or_falsy (stored LIST_FIELDS f (default VNone (kwargs !! f))) = true) →
  wf_query LIST_FIELDS DIRECT_FIELDS (Query_init ALL_FIELDS LIST_FIELDS kwargs) = true.
Proof.
  intros Hcov Htext Hlist. unfold wf_query.
  assert (Hlk : ∀ f, f ∈ map fst named_slots ++ DIRECT_FIELDS ++ LIST_FIELDS →
            Query_init ALL_FIELDS LIST_FIELDS kwargs !! f
            = Some (stored LIST_FIELDS f (default VNone (kwargs !! f)))).
  { intros f Hf. rewrite Query_init_lookup, bool_decide_eq_true_2; [done|].
    by apply settings_cover_elem. }
  apply andb_true_intro; split;
    [apply andb_true_intro; split; [apply andb_true_intro; split|]|];
    apply forallb_elem_of; intros f Hf; unfold attr_ok.
  - rewrite Hlk; [by apply Htext|].
    apply elem_of_app. left. revert Hf. rewrite !elem_of_cons.
    intros [->|[->|[]%elem_of_nil]]; in_list.
  - rewrite Hlk; [done|]. apply elem_of_app. by left.
  - rewrite Hlk; [done|]. rewrite !elem_of_app. auto.
  - rewrite Hlk; [by apply Hlist|]. rewrite !elem_of_app. auto.
Qed.

(** *** Rendering when only some slots can contribute *)

Lemma flat_map_filter {A B} (g : A → list B) (p : A → bool) (l : list A) :
  (∀ x, x ∈ l → p x = false → g x = []) →
  flat_map g l = flat_map g (List.filter p l).
Proof.
  induction l as [|x l IH]; intros H; simpl; [done|].
  rewrite IH by (intros y Hy; apply H; by apply list_elem_of_further).
  destruct (p x) eqn:Hp; simpl; [done|].
  rewrite (H x); [done|apply list_elem_of_here|done].
Qed.

Lemma filter_direct_slot (p : string → bool) (l : list string) :
  List.filter (λ sl, p sl.1) (map direct_slot l)
  = map direct_slot (List.filter p l).
Proof.
  induction l as [|x l IH]; simpl; [done|].
  destruct (p x); simpl; by rewrite IH.
Qed.

Lemma filter_list_slot (p : string → bool) (l : list string) :
  List.filter (λ sl, p sl.1) (map list_slot l)
  = map list_slot (List.filter p l).
Proof.
  induction l as [|x l IH]; simpl; [done|].
  destruct (p x); simpl; by rewrite IH.
Qed.

Lemma filter_eqb_repeat f (l : list string) :
  List.filter (String.eqb f) l = repeat f (occurrences f l).
Proof.
  unfold occurrences. induction l as [|x l IH]; simpl; [done|].
  destruct (String.eqb_spec f x) as [->|Hne]; simpl; by rewrite <- ?IH.
Qed.

Lemma spec_clause_unset self (sl : string * (value → string)) :
  default VNone (self !! sl.1) = VNone → spec_clause self sl = [].
Proof.
  unfold spec_clause. destruct (self !! sl.1) as [v|]; [|done].
  simpl. by intros ->.
Qed.

(** Slots of unset fields can be dropped from the rendering. *)
Lemma spec_clauses_drop_unset self f (slots : list (string * (value → string))) :
  default VNone (self !! f) = VNone →
  flat_map (spec_clause self) slots
  = flat_map (spec_clause self)
      (List.filter (λ sl, negb (String.eqb f sl.1)) slots).
Proof.
  intros Hf. apply flat_map_filter. intros sl _ Hp.
  apply negb_false_iff, String.eqb_eq in Hp. subst f.
  by apply spec_clause_unset.
Qed.

Lemma filter_eqb_absent f (l : list string) :
  f ∉ l → List.filter (String.eqb f) l = [].
Proof.
  induction l as [|x l IH]; simpl; [done|].
  rewrite not_elem_of_cons. intros [Hne Hl].
  destruct (String.eqb_spec f x); [done|]. by apply IH.
Qed.

Lemma occurrences_elem_of f (l : list string) :
  occurrences f l ≠ 0%nat → f ∈ l.
Proof.
  unfold occurrences. intros Hocc.
  destruct (decide (f ∈ l)) as [|Hnin]; [done|].
  by rewrite filter_eqb_absent in Hocc.
Qed.

Lemma Query_init_single_other f0 v0 f :
  f ≠ f0 →
  default VNone (Query_init ALL_FIELDS LIST_FIELDS {[f0 := v0]} !! f) = VNone.
Proof.
  intros Hne. rewrite Query_init_lookup.
  destruct (bool_decide (f ∈ ALL_FIELDS)); [|done].
  rewrite lookup_singleton_ne by done. simpl. by rewrite stored_not_str.
Qed.

(** A Query built from one keyword argument renders the slots of that
    field alone. *)
Lemma query_string_single f0 v0 :
  settings_cover ALL_FIELDS LIST_FIELDS DIRECT_FIELDS = true →
  (f0 ∈ ["all_terms"; "some_terms"] → str_or_falsy (stored LIST_FIELDS f0 v0) = true) →
  (f0 ∈ LIST_FIELDS → list_or_falsy (stored LIST_FIELDS f0 v0) = true) →
  let self := Query_init ALL_FIELDS LIST_FIELDS {[f0 := v0]} in
  query_string LIST_FIELDS DIRECT_FIELDS self
  = Ok (String.concat " "
          (flat_map (spec_clause self)
             (List.filter (λ sl, String.eqb f0 sl.1)
                          (spec_slots LIST_FIELDS DIRECT_FIELDS)))).
Proof.
  intros Hcov Htext Hlist self.
  assert (Hst : ∀ f, f ≠ f0 →
            stored LIST_FIELDS f (default VNone (({[f0 := v0]} : gmap string value) !! f))
            = VNone).
  { intros f Hne. rewrite lookup_singleton_ne by done. by apply stored_not_str. }
  rewrite query_string_refines; cycle 1.
  { apply wf_Query_init; [done| |]; intros f Hf.
    - destruct (decide (f = f0)) as [->|Hne].
      + rewrite lookup_singleton_eq. by apply Htext.
      + by rewrite Hst.
    - destruct (decide (f = f0)) as [->|Hne].
      + rewrite lookup_singleton_eq. by apply Hlist.
      + by rewrite Hst. }
  unfold spec_query_string. do 2 f_equal.
  apply flat_map_filter. intros sl _ Hp.
  apply spec_clause_unset, Query_init_single_other.
  apply String.eqb_neq in Hp. congruence.
Qed.

Lemma filter_spec_slots (p : string → bool) :
  List.filter (λ sl, p sl.1) (spec_slots LIST_FIELDS DIRECT_FIELDS)
  = List.filter (λ sl, p sl.1) named_slots
    ++ map direct_slot (List.filter p DIRECT_FIELDS)
    ++ map list_slot (List.filter p LIST_FIELDS).
Proof.
  unfold spec_slots.
  by rewrite !List.filter_app, filter_direct_slot, filter_list_slot.
Qed.

(** *** Falsy values *)

Lemma truthy_norm_falsy v : truthy (norm_falsy v) = truthy v.
Proof. unfold norm_falsy. by destruct (truthy v) eqn:E. Qed.

Lemma norm_falsy_truthy v : truthy v = true → norm_falsy v = v.
Proof. unfold norm_falsy. by intros ->. Qed.

Lemma append_if_norm self f term (qs : list value) :
  append_if (norm_falsy <$> self) f term qs = append_if self f term qs.
Proof.
  unfold append_if, getattr. rewrite lookup_fmap.
  destruct (self !! f) as [v|]; simpl; [|done].
  rewrite truthy_norm_falsy. destruct (truthy v) eqn:Ht; [|done].
  by rewrite norm_falsy_truthy.
Qed.

Lemma filter_set_norm self (l : list string) :
  filter_set (norm_falsy <$> self) l = filter_set self l.
Proof.
  induction l as [|x l IH]; simpl; [done|].
  unfold getattr. rewrite lookup_fmap, IH.
  destruct (self !! x) as [v|]; simpl; [|done].
  by rewrite truthy_norm_falsy.
Qed.

Lemma filter_set_truthy self (l keep : list string) :
  filter_set self l = Ok keep →
  ∀ f, f ∈ keep → ∃ v, self !! f = Some v ∧ truthy v = true.
Proof.
  revert keep. induction l as [|x l IH]; simpl; intros keep.
  - intros [= <-] f Hf. by apply elem_of_nil in Hf.
  - unfold getattr. destruct (self !! x) as [v|] eqn:Hx; simpl; [|done].
    destruct (filter_set self l) as [keep'|]; simpl; [|done].
    intros [= <-] f. destruct (truthy v) eqn:Ht.
    + rewrite elem_of_cons. intros [->|Hf]; [by exists v|by apply (IH keep')].
    + by apply IH.
Qed.

Lemma result_mapM_ext {A B} (g h : A → result B) (l : list A) :
  (∀ x, x ∈ l → g x = h x) → result_mapM g l = result_mapM h l.
Proof.
  induction l as [|x l IH]; intros H; simpl; [done|].
  rewrite (H x) by apply list_elem_of_here.
  rewrite IH; [done|]. intros y Hy. apply H. by apply list_elem_of_further.
Qed.

Lemma query_string_norm self :
  query_string LIST_FIELDS DIRECT_FIELDS (norm_falsy <$> self)
  = query_string LIST_FIELDS DIRECT_FIELDS self.
Proof.
  unfold query_string.
  assert (Hext : ∀ {A B} (m : result A) (k k' : A → result B),
            (∀ a, m = Ok a → k a = k' a) → (m ≫= k) = (m ≫= k')).
  { intros A B [a|e] k k' Hk; [by apply Hk|done]. }
  rewrite !append_if_norm.
  repeat (apply Hext; intros ? _; rewrite ?append_if_norm).
  rewrite !filter_set_norm.
  apply Hext; intros keep Hkeep.
  rewrite (result_mapM_ext (direct_string (norm_falsy <$> self)) (direct_string self));
    cycle 1.
  { intros f Hf. destruct (filter_set_truthy _ _ _ Hkeep f Hf) as (v & Hv & Ht).
    unfold direct_string, getattr. rewrite lookup_fmap, Hv. simpl.
    by rewrite norm_falsy_truthy. }
  apply Hext; intros ? _. apply Hext; intros keepl Hkeepl.
  rewrite (result_mapM_ext (list_string (norm_falsy <$> self)) (list_string self));
    [done|].
  intros f Hf. destruct (filter_set_truthy _ _ _ Hkeepl f Hf) as (v & Hv & Ht).
  unfold list_string, getattr. rewrite lookup_fmap, Hv. simpl.
  by rewrite norm_falsy_truthy.
Qed.

Lemma query_string_insert_falsy self f v :
  truthy v = false →
  query_string LIST_FIELDS DIRECT_FIELDS (<[f := v]> self)
  = query_string LIST_FIELDS DIRECT_FIELDS (<[f := VNone]> self).
Proof.
  intros Hv.
  rewrite <- (query_string_norm (<[f := v]> self)).
  rewrite <- (query_string_norm (<[f := VNone]> self)).
  rewrite !fmap_insert. unfold norm_falsy at 1. by rewrite Hv.
Qed.

(** *** The claims on rendering *)

(** C1. On every well-formed Query, [query_string] returns the clauses of
    the set (true-valued) fields in the fixed order of steps 1 to 11 --
    all-terms verbatim, the exact phrase in double quotes, the some-terms
    words joined by [" OR "] in parentheses, the exclusion after ["-"],
    ["is_first:true"], [thread.title:(v)], [thread.section_title:(v)],
    [language:(v)], [thread.country:v], then [field:value] for the direct
    fields and a parenthesised OR-group for the list fields -- joined by
    single spaces. A Query constructed with only [some_terms="a b c"]
    renders ["(a OR b OR c)"]. *)
Theorem query_string_fixed_order :
  (∀ self,
     wf_query LIST_FIELDS DIRECT_FIELDS self = true →
     query_string LIST_FIELDS DIRECT_FIELDS self
     = Ok (String.concat " "
             (flat_map (spec_clause self)
                (named_slots ++ map direct_slot DIRECT_FIELDS
                 ++ map list_slot LIST_FIELDS))))
  ∧ (settings_cover ALL_FIELDS LIST_FIELDS DIRECT_FIELDS = true →
     "some_terms" ∉ DIRECT_FIELDS → "some_terms" ∉ LIST_FIELDS →
     query_string LIST_FIELDS DIRECT_FIELDS
       (Query_init ALL_FIELDS LIST_FIELDS {["some_terms" := VStr "a b c"]})
     = Ok "(a OR b OR c)").
Proof.
  split; [apply query_string_refines|].
  intros Hcov Hd Hl.
  assert (Hs : stored LIST_FIELDS "some_terms" (VStr "a b c") = VStr "a b c")
    by by apply stored_scalar.
  rewrite query_string_single; [|done|by rewrite Hs|done].
  rewrite (filter_spec_slots (String.eqb "some_terms")).
  rewrite !filter_eqb_absent by done.
  change (List.filter _ named_slots) with [nth 2 named_slots ("", py_str)].
  cbn [map app flat_map nth named_slots]. unfold spec_clause. cbn [fst snd].
  rewrite Query_init_lookup, bool_decide_eq_true_2; cycle 1.
  { apply settings_cover_elem; [done|]. apply elem_of_app. left. in_list. }
  rewrite lookup_singleton_eq. cbn [default from_option id]. rewrite Hs. reflexivity.
Qed.

(** C2. Assigning a string to a list field stores the one-element list;
    a list field holding a list renders as the parenthesised OR-group over
    all its values. With [site] a list field, [site="cnn.com"] renders
    ["(site:cnn.com)"] and [site=["a","b"]] renders ["(site:a OR site:b)"]. *)
Theorem list_field_normalized_and_rendered :
  (∀ self f (s : string),
     f ∈ LIST_FIELDS →
     Query_setattr LIST_FIELDS self f (VStr s) !! f = Some (VList [s]))
  ∧ (∀ self f (l : list string),
       self !! f = Some (VList l) →
       list_string self f
       = Ok ("(" +:+ String.concat " OR " (map (λ x, f +:+ ":" +:+ x) l) +:+ ")"))
  ∧ (settings_cover ALL_FIELDS LIST_FIELDS DIRECT_FIELDS = true →
     occurrences "site" LIST_FIELDS = 1%nat → "site" ∉ DIRECT_FIELDS →
     query_string LIST_FIELDS DIRECT_FIELDS
       (Query_init ALL_FIELDS LIST_FIELDS {["site" := VStr "cnn.com"]})
     = Ok "(site:cnn.com)"
     ∧ query_string LIST_FIELDS DIRECT_FIELDS
         (Query_init ALL_FIELDS LIST_FIELDS {["site" := VList ["a"; "b"]]})
       = Ok "(site:a OR site:b)").
Proof.
  split; [|split].
  - intros self f s Hf. rewrite Query_setattr_insert, lookup_insert_eq.
    by rewrite stored_list_str.
  - intros self f l Hf. by rewrite (list_string_VList self f l Hf).
  - intros Hcov Hocc Hd.
    assert (Hin : "site" ∈ LIST_FIELDS)
      by (apply occurrences_elem_of; by rewrite Hocc).
    assert (Hall : "site" ∈ ALL_FIELDS).
    { apply settings_cover_elem; [done|]. rewrite !elem_of_app. auto. }
    assert (Hnot : "site" ∉ ["all_terms"; "some_terms"]).
    { rewrite !not_elem_of_cons. repeat split; [done..|apply not_elem_of_nil]. }
    assert (Hrender : ∀ v (l : list string),
              stored LIST_FIELDS "site" v = VList l → l ≠ [] →
              query_string LIST_FIELDS DIRECT_FIELDS
                (Query_init ALL_FIELDS LIST_FIELDS {["site" := v]})
              = Ok (or_group "site" l)).
    { intros v l Hst Hl.
      rewrite query_string_single;
        [|done|by intros ?|by intros _; rewrite Hst; apply orb_true_r].
      rewrite (filter_spec_slots (String.eqb "site")).
      rewrite (filter_eqb_absent "site" DIRECT_FIELDS) by done.
      rewrite filter_eqb_repeat, Hocc.
      change (List.filter _ named_slots) with (@nil (string * (value → string))).
      cbn [map app flat_map repeat]. unfold spec_clause, list_slot. cbn [fst snd].
      rewrite Query_init_lookup, bool_decide_eq_true_2 by done.
      rewrite lookup_singleton_eq. cbn [default from_option id]. rewrite Hst.
      destruct l; [done|]. reflexivity. }
    split.
    + rewrite (Hrender _ ["cnn.com"]); [done|by apply stored_list_str|done].
    + rewrite (Hrender _ ["a"; "b"]); [done|by apply stored_not_str|done].
Qed.

(** C3. A recognised filter left out of the keyword arguments, or passed as
    [None], is stored as [None]; and a field that is [None] (or missing)
    gives no clause: the rendering is that of the slots of the other
    fields. *)
Theorem unset_field_omitted :
  (∀ (kwargs : gmap string value) f,
     f ∈ ALL_FIELDS →
     kwargs !! f = None ∨ kwargs !! f = Some VNone →
     Query_init ALL_FIELDS LIST_FIELDS kwargs !! f = Some VNone)
  ∧ (∀ self f,
       wf_query LIST_FIELDS DIRECT_FIELDS self = true →
       self !! f = None ∨ self !! f = Some VNone →
       spec_clause self (f, py_str) = []
       ∧ query_string LIST_FIELDS DIRECT_FIELDS self
         = Ok (String.concat " "
                 (flat_map (spec_clause self)
                    (List.filter (λ sl, negb (String.eqb f sl.1))
                       (named_slots ++ map direct_slot DIRECT_FIELDS
                        ++ map list_slot LIST_FIELDS))))).
Proof.
  split.
  - intros kwargs f Hf Hk. apply Query_init_unset; [done|].
    by destruct Hk as [-> | ->].
  - intros self f Hwf Hf.
    assert (Hd : default VNone (self !! f) = VNone) by by destruct Hf as [-> | ->].
    split; [by apply spec_clause_unset|].
    rewrite query_string_refines by done. unfold spec_query_string.
    do 2 f_equal. by apply spec_clauses_drop_unset.
Qed.

(** C10. A falsy value renders exactly as [None] does. In general, for a
    value that [__setattr__] stores unchanged; in particular for the empty
    string in a field that is not a list field, for [False] in [is_first],
    and for the empty list in any field, which is therefore omitted and
    never renders as [()]. *)
Theorem falsy_rendered_as_unset :
  (∀ self f v,
     truthy v = false →
     (is_basestring v = true → f ∉ LIST_FIELDS) →
     query_string LIST_FIELDS DIRECT_FIELDS (Query_setattr LIST_FIELDS self f v)
     = query_string LIST_FIELDS DIRECT_FIELDS (Query_setattr LIST_FIELDS self f VNone))
  ∧ (∀ self f,
       f ∉ LIST_FIELDS →
       query_string LIST_FIELDS DIRECT_FIELDS (Query_setattr LIST_FIELDS self f (VStr ""))
       = query_string LIST_FIELDS DIRECT_FIELDS (Query_setattr LIST_FIELDS self f VNone))
  ∧ (∀ self,
       query_string LIST_FIELDS DIRECT_FIELDS
         (Query_setattr LIST_FIELDS self "is_first" (VBool false))
       = query_string LIST_FIELDS DIRECT_FIELDS
           (Query_setattr LIST_FIELDS self "is_first" VNone))
  ∧ (∀ self f,
       query_string LIST_FIELDS DIRECT_FIELDS (Query_setattr LIST_FIELDS self f (VList []))
       = query_string LIST_FIELDS DIRECT_FIELDS (Query_setattr LIST_FIELDS self f VNone)).
Proof.
  assert (Hgen : ∀ self f v,
     truthy v = false →
     (is_basestring v = true → f ∉ LIST_FIELDS) →
     query_string LIST_FIELDS DIRECT_FIELDS (Query_setattr LIST_FIELDS self f v)
     = query_string LIST_FIELDS DIRECT_FIELDS (Query_setattr LIST_FIELDS self f VNone)).
  { intros self f v Hv Hstr. rewrite !Query_setattr_insert.
    rewrite (stored_not_str f VNone) by done.
    assert (Hst : stored LIST_FIELDS f v = v).
    { destruct (is_basestring v) eqn:Hb.
      - by apply stored_scalar, Hstr.
      - by apply stored_not_str. }
    rewrite Hst. by apply query_string_insert_falsy. }
  split; [exact Hgen|]. split; [|split].
  - intros self f Hf. by apply Hgen.
  - intros self. by apply Hgen.
  - intros self f. by apply Hgen.
Qed.

End QueryTheory.

Lemma query_string_fixed_order_witness :
  let self : gmap string value :=
    Query_init sample_ALL_FIELDS sample_LIST_FIELDS
      (<["all_terms" := VStr "cats"]> (<["exact_phrase" := VStr "hello world"]>
        (<["is_first" := VBool true]> (<["language" := VStr "english"]>
          (<["author" := VStr "bob"]> {["site" := VList ["a"; "b"]]}))))) in
  query_string sample_LIST_FIELDS sample_DIRECT_FIELDS self
  = Ok (String.concat " "
          (flat_map (spec_clause self)
             (named_slots ++ map direct_slot sample_DIRECT_FIELDS
              ++ map list_slot sample_LIST_FIELDS)))
  ∧ query_string sample_LIST_FIELDS sample_DIRECT_FIELDS
      (Query_init sample_ALL_FIELDS sample_LIST_FIELDS {["some_terms" := VStr "a b c"]})
    = Ok "(a OR b OR c)".
Proof.
  intros self.
  pose proof (query_string_fixed_order sample_ALL_FIELDS sample_LIST_FIELDS
                sample_DIRECT_FIELDS) as [H1 H2].
  split.
  - apply H1. vm_compute. reflexivity.
  - apply H2; [vm_compute; reflexivity|compute_done|compute_done].
Defined.

Lemma list_field_normalized_and_rendered_witness :
  Query_setattr sample_LIST_FIELDS ∅ "site" (VStr "cnn.com") !! "site"
  = Some (VList ["cnn.com"])
  ∧ list_string (<["person" := VList ["ann"; "bob"]]> ∅) "person"
    = Ok "(person:ann OR person:bob)"
  ∧ query_string sample_LIST_FIELDS sample_DIRECT_FIELDS
      (Query_init sample_ALL_FIELDS sample_LIST_FIELDS {["site" := VStr "cnn.com"]})
    = Ok "(site:cnn.com)"
  ∧ query_string sample_LIST_FIELDS sample_DIRECT_FIELDS
      (Query_init sample_ALL_FIELDS sample_LIST_FIELDS {["site" := VList ["a"; "b"]]})
    = Ok "(site:a OR site:b)".
Proof.
  pose proof (list_field_normalized_and_rendered sample_ALL_FIELDS
                sample_LIST_FIELDS sample_DIRECT_FIELDS) as (H1 & H2 & H3).
  split; [|split].
  - apply H1. compute_done.
  - apply (H2 _ "person" ["ann"; "bob"]). vm_compute. reflexivity.
  - apply H3; [vm_compute; reflexivity|vm_compute; reflexivity|compute_done].
Defined.

Lemma unset_field_omitted_witness :
  Query_init sample_ALL_FIELDS sample_LIST_FIELDS {["author" := VStr "bob"]} !! "site"
  = Some VNone
  ∧ let self : gmap string value :=
      Query_init sample_ALL_FIELDS sample_LIST_FIELDS
        (<["author" := VStr "bob"]> {["all_terms" := VStr "cats"]}) in
    spec_clause self ("site", py_str) = []
    ∧ query_string sample_LIST_FIELDS sample_DIRECT_FIELDS self
      = Ok (String.concat " "
              (flat_map (spec_clause self)
                 (List.filter (λ sl, negb (String.eqb "site" sl.1))
                    (named_slots ++ map direct_slot sample_DIRECT_FIELDS
                     ++ map list_slot sample_LIST_FIELDS)))).
Proof.
  pose proof (unset_field_omitted sample_ALL_FIELDS sample_LIST_FIELDS
                sample_DIRECT_FIELDS) as [H1 H2].
  split.
  - apply H1; [compute_done|]. left. vm_compute. reflexivity.
  - apply H2; [vm_compute; reflexivity|]. right. vm_compute. reflexivity.
Defined.

Lemma falsy_rendered_as_unset_witness :
  let self : gmap string value :=
    Query_init sample_ALL_FIELDS sample_LIST_FIELDS {["all_terms" := VStr "cats"]} in
  query_string sample_LIST_FIELDS sample_DIRECT_FIELDS
    (Query_setattr sample_LIST_FIELDS self "author" (VInt 0))
  = query_string sample_LIST_FIELDS sample_DIRECT_FIELDS
      (Query_setattr sample_LIST_FIELDS self "author" VNone)
  ∧ query_string sample_LIST_FIELDS sample_DIRECT_FIELDS
      (Query_setattr sample_LIST_FIELDS self "exclude" (VStr ""))
    = query_string sample_LIST_FIELDS sample_DIRECT_FIELDS
        (Query_setattr sample_LIST_FIELDS self "exclude" VNone).
Proof.
  intros self.
  pose proof (falsy_rendered_as_unset sample_LIST_FIELDS sample_DIRECT_FIELDS)
    as (H1 & H2 & _ & _).
  split.
  - apply H1; [reflexivity|]. intros [=].
  - apply H2. compute_done.
Defined.

(** * Properties of the session and of the response *)

Lemma raises_only_Ok {A} (P : exn → Prop) (a : A) : raises_only P (Ok a).
Proof. by intros e. Qed.

Lemma raises_only_Raise {A} (P : exn → Prop) (e : exn) :
  P e → raises_only P (@Raise A e).
Proof. by intros He e' [= <-]. Qed.

Lemma raises_only_bind {A B} (P : exn → Prop) (m : result A) (k : A → result B) :
  raises_only P m → (∀ a, raises_only P (k a)) → raises_only P (m ≫= k).
Proof.
  intros Hm Hk e. destruct m as [a|e']; simpl.
  - apply Hk.
  - intros [= <-]. by apply Hm.
Qed.

Lemma raises_only_fmap {A B} (P : exn → Prop) (m : result A) (g : A → B) :
  raises_only P m → raises_only P (g <$> m).
Proof.
  intros Hm e. destruct m as [a|e']; simpl; [done|].
  intros [= <-]. by apply Hm.
Qed.

Lemma raises_only_mapM {A B} (P : exn → Prop) (g : A → result B) (l : list A) :
  (∀ a, raises_only P (g a)) → raises_only P (result_mapM g l).
Proof.
  intros Hg. induction l as [|x l IH]; simpl; [apply raises_only_Ok|].
  apply raises_only_bind; [apply Hg|]. intros y.
  apply raises_only_bind; [apply IH|]. intros ys. apply raises_only_Ok.
Qed.

Lemma raises_only_lift_lib {A} (r : lib_result A) :
  raises_only not_token_missing (lift_lib r).
Proof. destruct r; intros e; simpl; [done|]. by intros [= <-]. Qed.

(** Leaves of the bodies: a [match] that returns or raises at once. *)
Ltac raises_leaf :=
  repeat match goal with
  | |- raises_only _ (Ok _) => apply raises_only_Ok
  | |- raises_only _ (Raise _) => apply raises_only_Raise; exact I
  | |- raises_only _ (lift_lib _) => apply raises_only_lift_lib
  | |- raises_only _ (_ ≫= _) => apply raises_only_bind; [|intros ?]
  | |- raises_only _ (match ?x with _ => _ end) => destruct x
  | |- raises_only _ (if ?x then _ else _) => destruct x
  end.

Lemma filter_set_raises self (l : list string) :
  raises_only not_token_missing (filter_set self l).
Proof.
  induction l as [|x l IH]; simpl; [apply raises_only_Ok|].
  apply raises_only_bind; [unfold getattr; raises_leaf|]. intros v.
  apply raises_only_bind; [apply IH|]. intros keep. apply raises_only_Ok.
Qed.

Lemma as_strs_raises (l : list value) : raises_only not_token_missing (as_strs l).
Proof.
  induction l as [|x l IH]; simpl; [apply raises_only_Ok|].
  destruct x; raises_leaf. apply IH.
Qed.

Lemma py_join_raises (sep : string) (l : list value) :
  raises_only not_token_missing (py_join sep l).
Proof.
  unfold py_join. apply raises_only_bind; [apply as_strs_raises|].
  intros ?. apply raises_only_Ok.
Qed.

Lemma append_if_raises self f term (qs : list value) :
  (∀ v, raises_only not_token_missing (term v)) →
  raises_only not_token_missing (append_if self f term qs).
Proof.
  intros Hterm. unfold append_if, getattr.
  apply raises_only_bind; [raises_leaf|]. intros v.
  destruct (truthy v); [|apply raises_only_Ok].
  apply raises_only_bind; [apply Hterm|]. intros ?. apply raises_only_Ok.
Qed.

Lemma query_string_raises (LIST_FIELDS DIRECT_FIELDS : list string) self :
  raises_only not_token_missing (query_string LIST_FIELDS DIRECT_FIELDS self).
Proof.
  unfold query_string.
  repeat (apply raises_only_bind;
          [apply append_if_raises; intros v; unfold py_replace_space; raises_leaf
          |intros ?]).
  apply raises_only_bind; [apply filter_set_raises|intros ?].
  apply raises_only_bind.
  { apply raises_only_mapM. intros f. unfold direct_string, getattr. raises_leaf. }
  intros ?.
  apply raises_only_bind; [apply filter_set_raises|intros ?].
  apply raises_only_bind; [|intros ?; apply py_join_raises].
  apply raises_only_mapM. intros f. unfold list_string, getattr, py_iter.
  raises_leaf; apply py_join_raises.
Qed.

Section SessionTheory.

Context (LIST_FIELDS DIRECT_FIELDS : list string).
Context (urljoin : string → json → lib_result string).
Context (urlparse_query : json → lib_result string).
Context (parse_qs : string → gmap string (list string)).
Context (world : Type).
Context (requests_get :
  string → gmap string value → world → lib_result http_response * world).

#[local] Abbreviation init := (Response_init urljoin urlparse_query parse_qs).
#[local] Abbreviation search :=
  (Session_search LIST_FIELDS DIRECT_FIELDS urljoin urlparse_query parse_qs
                  world requests_get).
#[local] Abbreviation rendered := (search_query LIST_FIELDS DIRECT_FIELDS).

Lemma Response_init_raises (resp : http_response) (sess : Session) :
  raises_only not_token_missing (init resp sess).
Proof.
  unfold Response_init, extract_next_ts, http_json, json_getitem,
    json_iter.
  raises_leaf.
  apply raises_only_mapM. intros post. simpl. raises_leaf.
Qed.

Lemma Response_init_wraps (resp : http_response) (sess : Session) (r : Response) :
  init resp sess = Ok r → response r = resp ∧ session r = sess.
Proof.
  unfold Response_init.
  repeat match goal with
  | |- (?m ≫= _) = Ok _ → _ => destruct m; simpl; [|done]
  end.
  by intros [= <-].
Qed.

Lemma search_unfold (self : Session) (query : query_arg) (tok since : value)
    (w : world) (q : value) :
  ¬ (tok = VNone ∧ token self = VNone) →
  rendered query = Ok q →
  search self query tok since w
  = match requests_get "http://webhose.io/search"
            (search_params self q tok since) w with
    | (LibRaise cls, w') => (Raise (LibraryError cls), w')
    | (LibOk resp, w') =>
        if negb (status_code resp =? 200) then (Raise (Exception (text resp)), w')
        else (init resp self, w')
    end.
Proof.
  intros Htok Hq. unfold Session_search. rewrite Hq.
  destruct tok, (token self); try done. by destruct Htok.
Qed.

(** C5. With a token resolved and the query rendered, a reply whose status
    is not 200 makes [search] raise [Exception] with the body text, as
    claimed. A reply with status 200 is not always wrapped in a Response:
    on a complete page -- every field present, a link that joins and
    carries a [ts] parameter -- [search] returns the Response only when the
    list of posts is empty; with at least one post it raises [TypeError],
    [Post(post)] handing a positional argument to a constructor that takes
    keyword arguments only. *)
Theorem search_reply_handling (self : Session) (query : query_arg)
    (tok since : value) (w w' : world) (q : value) (resp : http_response) :
  ¬ (tok = VNone ∧ token self = VNone) →
  rendered query = Ok q →
  requests_get "http://webhose.io/search" (search_params self q tok since) w
  = (LibOk resp, w') →
  (status_code resp ≠ 200 →
   search self query tok since w = (Raise (Exception (text resp)), w'))
  ∧ (∀ (page : gmap string json) (total nx left more : json)
       (joined params ts : string) (tss : list string) (raw : list json),
       status_code resp = 200 →
       body resp = Some (JObj page) →
       page !! "totalResults" = Some total →
       page !! "next" = Some nx →
       urljoin (url resp) nx = LibOk joined →
       urlparse_query nx = LibOk params →
       parse_qs params !! "ts" = Some (ts :: tss) →
       page !! "requestsLeft" = Some left →
       page !! "moreResultsAvailable" = Some more →
       page !! "posts" = Some (JArr raw) →
       search self query tok since w
       = (match raw with
          | [] => Ok (mk_Response resp self total joined ts left more [])
          | _ :: _ => Raise TypeError
          end, w')).
Proof.
  intros Htok Hq Hget. rewrite (search_unfold self query tok since w q Htok Hq), Hget.
  split.
  - intros Hst. apply Z.eqb_neq in Hst. by rewrite Hst.
  - intros page total nx left more joined params ts tss raw
      Hst Hbody Htotal Hnext Hjoin Hparse Hts Hleft Hmore Hposts.
    apply Z.eqb_eq in Hst. rewrite Hst. cbn [negb]. f_equal.
    unfold Response_init, extract_next_ts, http_json, json_getitem.
    rewrite Hbody. simpl. rewrite Htotal, Hnext. simpl.
    rewrite Hjoin, Hparse. simpl. rewrite Hts, Hleft, Hmore, Hposts.
    by destruct raw.
Qed.

(** C9, as amended. Constructing a Response reads the cursor timestamp from
    ['next'] whatever the page says about further results: no hypothesis
    bears on ['moreResultsAvailable']. On a decoded page without ['next']
    it raises [KeyError]; so it does when ['next'] joins with the address
    of the reply and its query has no [ts] parameter. When the URL
    functions refuse ['next'], as they do the null value, it is their
    exception that is raised, not a lookup error. *)
Theorem response_init_requires_cursor (resp : http_response) (sess : Session)
    (page : gmap string json) :
  body resp = Some (JObj page) →
  (page !! "next" = None → init resp sess = Raise KeyError)
  ∧ (∀ nx joined params,
       page !! "next" = Some nx →
       urljoin (url resp) nx = LibOk joined →
       urlparse_query nx = LibOk params →
       parse_qs params !! "ts" = None →
       init resp sess = Raise KeyError)
  ∧ (∀ nx joined cls,
       is_Some (page !! "totalResults") →
       page !! "next" = Some nx →
       urljoin (url resp) nx = LibOk joined →
       urlparse_query nx = LibRaise cls →
       init resp sess = Raise (LibraryError cls)).
Proof.
  intros Hbody. unfold Response_init, extract_next_ts, http_json.
  rewrite Hbody. simpl. split; [|split].
  - intros Hnext. destruct (page !! "totalResults"); simpl; [|done].
    by rewrite Hnext.
  - intros nx joined params Hnext Hjoin Hparse Hts.
    destruct (page !! "totalResults"); simpl; [|done].
    rewrite Hnext. simpl. rewrite Hjoin, Hparse. simpl. by rewrite Hts.
  - intros nx joined cls [total ->] Hnext Hjoin Hparse. simpl.
    rewrite Hnext. simpl. by rewrite Hjoin, Hparse.
Qed.

(** *** The iterator *)

#[local] Abbreviation step := (gen_step urljoin urlparse_query parse_qs world requests_get).
#[local] Abbreviation run := (gen_run urljoin urlparse_query parse_qs world requests_get).

Lemma gen_run_last_page (self : Response) (ref : resp_ref) (w : world)
    (pending : list Post) (fuel : nat) :
  json_eq_zero (more (gen_current (mk_gen self ref PcStart))) = true →
  (length pending < fuel)%nat →
  run fuel (mk_gen self ref (PcFor pending)) w
  = (map EvYield pending, mk_gen self ref (PcDone None), w).
Proof.
  intros Hmore. revert fuel.
  induction pending as [|post pending IH]; intros fuel Hfuel;
    (destruct fuel as [|fuel]; [simpl in Hfuel; lia|]).
  - cbn [gen_run gen_pc_of]. unfold gen_step. cbn [gen_pc_of].
    change (gen_current _) with (gen_current (mk_gen self ref PcStart)).
    rewrite Hmore. by destruct fuel.
  - cbn [gen_run gen_pc_of]. unfold gen_step. cbn [gen_pc_of gen_self gen_response].
    rewrite IH by (simpl in Hfuel; lia). done.
Qed.

(** C6. Iterating a Response whose page reports [more == 0] yields the
    posts of that page, in order, and stops: no request is made, the object
    and the world are left as they were, and the generator is finished, a
    state it never leaves. *)
Theorem iterate_last_page (self : Response) (w : world) (fuel : nat) :
  json_eq_zero (more self) = true →
  (length (posts self) + 2 ≤ fuel)%nat →
  let finished := mk_gen self RefSelf (PcDone None) in
  run fuel (Response_iter self) w = (map EvYield (posts self), finished, w)
  ∧ step finished w = ([], finished, w)
  ∧ ∀ fuel', run fuel' finished w = ([], finished, w).
Proof.
  intros Hmore Hfuel finished. split; [|split].
  - destruct fuel as [|fuel]; [lia|].
    unfold Response_iter. cbn [gen_run gen_pc_of gen_step gen_self].
    rewrite gen_run_last_page; [done|done|lia].
  - reflexivity.
  - by intros [|fuel'].
Qed.


End SessionTheory.

(** C4, as amended. [search] raises [TokenMissingException] exactly when
    the call-site token and the session token are both [None]. Otherwise,
    once the query is rendered, its outcome is a function of the reply to
    one GET of the search endpoint whose parameters carry the query and,
    as token, the call-site token when that is a true value; a call-site
    token that is false without being [None] (the empty string) leaves the
    session token to be sent. *)
Theorem search_token_resolution (LIST_FIELDS DIRECT_FIELDS : list string)
    (urljoin : string → json → lib_result string)
    (urlparse_query : json → lib_result string)
    (parse_qs : string → gmap string (list string)) (world : Type) :
  (∀ requests_get (self : Session) (query : query_arg) (tok since : value) (w : world),
     (∃ msg, (Session_search LIST_FIELDS DIRECT_FIELDS urljoin urlparse_query
                parse_qs world requests_get self query tok since w).1
             = Raise (TokenMissingException msg))
     ↔ tok = VNone ∧ token self = VNone)
  ∧ (∀ (self : Session) (query : query_arg) (tok since q : value),
       ¬ (tok = VNone ∧ token self = VNone) →
       search_query LIST_FIELDS DIRECT_FIELDS query = Ok q →
       ∃ params : gmap string value,
         params !! "q" = Some q
         ∧ (truthy tok = true → params !! "token" = Some tok)
         ∧ (truthy tok = false → params !! "token" = Some (token self))
         ∧ ∃ k, ∀ requests_get (w : world),
             Session_search LIST_FIELDS DIRECT_FIELDS urljoin urlparse_query
               parse_qs world requests_get self query tok since w
             = k (requests_get "http://webhose.io/search" params w)).
Proof.
  split.
  - intros requests_get self query tok since w. split.
    + intros [msg Hraise].
      destruct (decide (tok = VNone ∧ token self = VNone)) as [|Hno]; [done|].
      exfalso. revert Hraise.
      assert (Hq : raises_only not_token_missing
                     (search_query LIST_FIELDS DIRECT_FIELDS query)).
      { destruct query; simpl; [|apply raises_only_Ok].
        apply raises_only_fmap, query_string_raises. }
      destruct (search_query LIST_FIELDS DIRECT_FIELDS query) as [q|e] eqn:Hrq.
      * rewrite (search_unfold _ _ _ _ _ _ _ _ _ _ _ _ q Hno Hrq).
        destruct (requests_get _ _ w) as [[resp|cls] w']; [|done].
        destruct (negb _); [done|]. simpl.
        apply (Response_init_raises urljoin urlparse_query parse_qs resp self).
      * unfold Session_search. rewrite Hrq.
        intros Hraise. specialize (Hq e eq_refl).
        destruct tok, (token self); simpl in Hraise;
          try (injection Hraise as ->; exact Hq).
        by destruct Hno.
    + intros [-> Hself]. unfold Session_search. rewrite Hself. by eexists.
  - intros self query tok since q Hno Hq.
    exists (search_params self q tok since). repeat split.
    + unfold search_params. destruct (truthy since);
        rewrite ?lookup_insert_ne by done; by rewrite lookup_insert_eq.
    + intros Ht. unfold search_params. rewrite Ht. destruct (truthy since);
        rewrite ?lookup_insert_ne by done; by rewrite lookup_insert_eq.
    + intros Ht. unfold search_params. rewrite Ht. destruct (truthy since);
        rewrite ?lookup_insert_ne by done; by rewrite lookup_insert_eq.
    + eexists (λ reply, match reply with
                        | (LibRaise cls, w') => (Raise (LibraryError cls), w')
                        | (LibOk resp, w') =>
                            if negb (status_code resp =? 200)
                            then (Raise (Exception (text resp)), w')
                            else (Response_init urljoin urlparse_query parse_qs
                                    resp self, w')
                        end).
      intros requests_get w. by apply search_unfold.
Qed.

(** C4, as stated, fails: a call-site token that is given but false, the
    empty string, does not take precedence; the session token is sent. *)
Lemma search_token_counterexample :
  ¬ (∀ (self : Session) (tok : value),
       tok ≠ VNone →
       map (λ request, request.2 !! "token")
           (Session_search [] [] sample_urljoin sample_urlparse_query
              sample_parse_qs sample_world
              (sample_requests_get (sample_page 200 None 0))
              self (QOther (VStr "cats")) tok VNone []).2
       = [Some tok]).
Proof.
  intros H. specialize (H (mk_Session (VStr "abc")) (VStr "")).
  vm_compute in H. by specialize (H ltac:(intros [=])).
Qed.

Lemma search_token_resolution_witness :
  ((∃ msg,
      (Session_search sample_LIST_FIELDS sample_DIRECT_FIELDS sample_urljoin
         sample_urlparse_query sample_parse_qs sample_world
         (sample_requests_get (sample_page 200 None 0))
         (mk_Session VNone) (QOther (VStr "cats")) VNone VNone []).1
      = Raise (TokenMissingException msg))
   ↔ VNone = VNone ∧ token (mk_Session VNone) = VNone)
  ∧ ∃ params : gmap string value,
      params !! "q" = Some (VStr "cats")
      ∧ (truthy (VStr "call") = true → params !! "token" = Some (VStr "call"))
      ∧ (truthy (VStr "call") = false →
         params !! "token" = Some (token (mk_Session (VStr "abc"))))
      ∧ ∃ k, ∀ requests_get (w : sample_world),
          Session_search sample_LIST_FIELDS sample_DIRECT_FIELDS sample_urljoin
            sample_urlparse_query sample_parse_qs sample_world requests_get
            (mk_Session (VStr "abc")) (QOther (VStr "cats")) (VStr "call") VNone w
          = k (requests_get "http://webhose.io/search" params w).
Proof.
  destruct (search_token_resolution sample_LIST_FIELDS sample_DIRECT_FIELDS
              sample_urljoin sample_urlparse_query sample_parse_qs sample_world)
    as [Hiff Hsent].
  split.
  - apply Hiff.
  - apply Hsent; [intros [[=] _]|reflexivity].
Defined.

Lemma search_reply_handling_witness :
  let sess := mk_Session (VStr "abc") in
  let query := QQuery (Query_init sample_ALL_FIELDS sample_LIST_FIELDS
                         {["all_terms" := VStr "cats"]}) in
  let request := ("http://webhose.io/search",
                  search_params sess (VStr "cats") VNone VNone) in
  let failed := sample_page 404 None 0 in
  let fields : gmap string json :=
    <["totalResults" := JInt 1]> (<["requestsLeft" := JInt 99]>
      (<["moreResultsAvailable" := JInt 0]>
         (<["next" := JStr "http://webhose.io/search?ts=3"]>
            {["posts" := JArr [JObj {["uuid" := JStr "p1"]}]]}))) in
  let page :=
    mk_http_response "http://webhose.io/search?q=cats" 200 "" (Some (JObj fields)) in
  Session_search sample_LIST_FIELDS sample_DIRECT_FIELDS sample_urljoin
    sample_urlparse_query sample_parse_qs sample_world (sample_requests_get failed)
    sess query VNone VNone []
  = (Raise (Exception "body text"), [request])
  ∧ Session_search sample_LIST_FIELDS sample_DIRECT_FIELDS sample_urljoin
      sample_urlparse_query sample_parse_qs sample_world (sample_requests_get page)
      sess query VNone VNone []
    = (Raise TypeError, [request]).
Proof.
  intros sess query request failed fields page. split.
  - apply (search_reply_handling sample_LIST_FIELDS sample_DIRECT_FIELDS
             sample_urljoin sample_urlparse_query sample_parse_qs sample_world
             (sample_requests_get failed) sess query VNone VNone [] [request]
             (VStr "cats") failed);
      [intros [_ [=]]|vm_compute; reflexivity|reflexivity|].
    vm_compute. intros [=].
  - apply (proj2 (search_reply_handling sample_LIST_FIELDS sample_DIRECT_FIELDS
             sample_urljoin sample_urlparse_query sample_parse_qs sample_world
             (sample_requests_get page) sess query VNone VNone [] [request]
             (VStr "cats") page
             ltac:(intros [_ [=]]) ltac:(vm_compute; reflexivity) eq_refl)
             fields (JInt 1) (JStr "http://webhose.io/search?ts=3") (JInt 99)
             (JInt 0) "http://webhose.io/search?ts=3" "ts=3" "3" []
             [JObj {["uuid" := JStr "p1"]}]);
      vm_compute; reflexivity.
Defined.

(** C9, as stated, fails for a null ['next']: with URL functions that
    behave on [None] as those of Python 2.7 do, the last page of a search
    whose ['next'] is null raises [AttributeError], from [urlparse], which
    is not a lookup error. *)
Lemma response_init_null_counterexample :
  let sess := mk_Session (VStr "abc") in
  let page := sample_page 200 (Some JNull) 0 in
  let r := Response_init sample_urljoin sample_urlparse_query sample_parse_qs
             page sess in
  r = Raise (LibraryError "AttributeError")
  ∧ r ≠ Raise KeyError ∧ r ≠ Raise IndexError.
Proof.
  intros sess page r. assert (H : r = Raise (LibraryError "AttributeError"))
    by (vm_compute; reflexivity).
  split; [exact H|]. rewrite H. split; discriminate.
Qed.

Lemma response_init_requires_cursor_witness :
  let sess := mk_Session (VStr "abc") in
  Response_init sample_urljoin sample_urlparse_query sample_parse_qs
    (sample_page 200 None 0) sess = Raise KeyError
  ∧ Response_init sample_urljoin sample_urlparse_query sample_parse_qs
      (sample_page 200 (Some (JStr "http://webhose.io/search?q=cats")) 0) sess
    = Raise KeyError
  ∧ Response_init sample_urljoin sample_urlparse_query sample_parse_qs
      (sample_page 200 (Some JNull) 0) sess
    = Raise (LibraryError "AttributeError").
Proof.
  intros sess. split; [|split].
  - by apply (response_init_requires_cursor sample_urljoin sample_urlparse_query
                sample_parse_qs (sample_page 200 None 0) sess _ eq_refl).
  - apply (proj1 (proj2 (response_init_requires_cursor sample_urljoin
                    sample_urlparse_query sample_parse_qs
                    (sample_page 200 (Some (JStr "http://webhose.io/search?q=cats")) 0)
                    sess _ eq_refl))
             (JStr "http://webhose.io/search?q=cats")
             "http://webhose.io/search?q=cats" "q=cats");
      reflexivity.
  - apply (proj2 (proj2 (response_init_requires_cursor sample_urljoin
                    sample_urlparse_query sample_parse_qs
                    (sample_page 200 (Some JNull) 0) sess _ eq_refl))
             JNull "http://webhose.io/search?q=cats" "AttributeError");
      [by eexists|reflexivity|reflexivity|reflexivity].
Defined.

Lemma iterate_last_page_witness :
  let self :=
    mk_Response (sample_page 200 None 0) (mk_Session (VStr "abc")) (JInt 7)
      "http://webhose.io/search?ts=2" "2" (JInt 99) (JInt 0)
      [sample_post 1; sample_post 2] in
  gen_run sample_urljoin sample_urlparse_query sample_parse_qs sample_world
    (sample_requests_get (sample_page 200 None 0)) 4 (Response_iter self) []
  = ([EvYield (sample_post 1); EvYield (sample_post 2)],
     mk_gen self RefSelf (PcDone None), []).
Proof.
  intros self.
  apply (proj1 (iterate_last_page sample_urljoin sample_urlparse_query
                  sample_parse_qs sample_world
                  (sample_requests_get (sample_page 200 None 0)) self [] 4
                  eq_refl ltac:(simpl; lia))).
Defined.


(** * Properties of the timestamp parser *)

Lemma forallb_seqZ (p : Z → bool) (lo len : Z) :
  forallb p (seqZ lo len) = true → ∀ n, lo ≤ n < lo + len → p n = true.
Proof.
  rewrite forallb_forall. intros H n Hn. apply H.
  apply list_elem_of_In, elem_of_seqZ. lia.
Qed.

Lemma py_int_pad2 (n : Z) : 0 ≤ n < 100 → py_int (pad2 n) = Ok n.
Proof.
  intros Hn.
  assert (H : forallb (λ n, match py_int (pad2 n) with
                            | Ok m => m =? n
                            | Raise _ => false
                            end) (seqZ 0 100) = true) by (vm_compute; reflexivity).
  pose proof (forallb_seqZ _ _ _ H n ltac:(lia)) as Hp. simpl in Hp.
  destruct (py_int (pad2 n)) as [m|]; [|done].
  apply Z.eqb_eq in Hp. by subst.
Qed.

Lemma py_int_pad4 (n : Z) : 0 ≤ n < 10000 → py_int (pad4 n) = Ok n.
Proof.
  intros Hn.
  assert (H : forallb (λ n, match py_int (pad4 n) with
                            | Ok m => m =? n
                            | Raise _ => false
                            end) (seqZ 0 10000) = true) by (vm_compute; reflexivity).
  pose proof (forallb_seqZ _ _ _ H n ltac:(lia)) as Hp. simpl in Hp.
  destruct (py_int (pad4 n)) as [m|]; [|done].
  apply Z.eqb_eq in Hp. by subst.
Qed.

Lemma match_alt_app (a : list cclass) (cap rest : string) :
  (length a ≤ String.length cap)%nat →
  match_alt a (cap +:+ rest)
  = match match_alt a cap with
    | Some (c, r) => Some (c, r +:+ rest)
    | None => None
    end.
Proof.
  revert cap. induction a as [|cl a IH]; intros cap Hlen; simpl; [done|].
  destruct cap as [|c cap]; simpl in *; [lia|].
  destruct (cl c); [|done]. rewrite IH by lia.
  by destruct (match_alt a cap) as [[c' r]|].
Qed.

Lemma match_alt_capture (a : list cclass) (s c r : string) :
  match_alt a s = Some (c, r) → s = c +:+ r.
Proof.
  revert s c r. induction a as [|cl a IH]; intros s c r; simpl.
  - by intros [= <- <-].
  - destruct s as [|x s]; [done|]. destruct (cl x); [|done].
    destruct (match_alt a s) as [[c' r']|] eqn:Hm; [|done].
    intros [= <- <-]. simpl. f_equal. by apply IH.
Qed.

Lemma string_app_nil_r (s : string) : s +:+ "" = s.
Proof. induction s as [|c s IH]; simpl; [done|]. by rewrite IH. Qed.

(** A field whose text is matched whole by its first matching alternative
    is captured, and the match goes on behind it. *)
Lemma match_items_field (tag : option ascii) (alts : list (list cclass))
    (items : list item) (cap rest : string)
    (caps : list (option ascii * string)) (r : string) :
  first_full_match alts cap = true →
  Forall (λ a, (length a ≤ String.length cap)%nat) alts →
  match_items items rest = Some (caps, r) →
  match_items ((tag, alts) :: items) (cap +:+ rest) = Some ((tag, cap) :: caps, r).
Proof.
  intros Hfirst Hlen Hrest. simpl.
  induction alts as [|a alts IH]; simpl in *; [done|].
  apply Forall_cons in Hlen as [Ha Hlen].
  rewrite match_alt_app by done.
  destruct (match_alt a cap) as [[c r']|] eqn:Hm.
  - apply String.eqb_eq in Hfirst. subst r'.
    apply match_alt_capture in Hm. rewrite string_app_nil_r in Hm. subst c.
    simpl. by rewrite Hrest.
  - by apply IH.
Qed.

Lemma first_full_match_pad2 (d : ascii) (lo len n : Z) :
  forallb (λ n, first_full_match (alts_of d) (pad2 n)) (seqZ lo len) = true →
  lo ≤ n < lo + len →
  first_full_match (alts_of d) (pad2 n) = true.
Proof. intros H Hn. by apply (forallb_seqZ _ _ _ H). Qed.

Lemma first_full_match_pad4 (n : Z) :
  0 ≤ n < 10000 → first_full_match (alts_of "Y") (pad4 n) = true.
Proof.
  intros Hn.
  assert (H : forallb (λ n, first_full_match (alts_of "Y") (pad4 n))
                      (seqZ 0 10000) = true) by (vm_compute; reflexivity).
  by apply (forallb_seqZ _ _ _ H).
Qed.

Lemma iso_format_items :
  format_items "%Y-%m-%dT%H:%M:%S"
  = Some [ (Some "Y"%char, alts_of "Y"); (None, [[lit "-"]]);
           (Some "m"%char, alts_of "m"); (None, [[lit "-"]]);
           (Some "d"%char, alts_of "d"); (None, [[lit "T"]]);
           (Some "H"%char, alts_of "H"); (None, [[lit ":"]]);
           (Some "M"%char, alts_of "M"); (None, [[lit ":"]]);
           (Some "S"%char, alts_of "S") ].
Proof. reflexivity. Qed.

Lemma valid_datetime_bounds (dt : datetime) :
  valid_datetime dt = true →
  1 ≤ year dt ≤ 9999 ∧ 1 ≤ month dt ≤ 12
  ∧ 1 ≤ day dt ≤ days_in_month (year dt) (month dt)
  ∧ 0 ≤ hour dt ≤ 23 ∧ 0 ≤ minute dt ≤ 59 ∧ 0 ≤ second dt ≤ 59.
Proof.
  unfold valid_datetime, datetime_new.
  destruct (_ && _) eqn:E; [|done]. intros _.
  repeat (apply andb_prop in E as [E ?]).
  repeat match goal with H : (_ <=? _) = true |- _ => apply Z.leb_le in H end.
  lia.
Qed.

Lemma valid_datetime_new (dt : datetime) :
  valid_datetime dt = true →
  datetime_new (year dt) (month dt) (day dt) (hour dt) (minute dt) (second dt)
  = Ok dt.
Proof.
  unfold valid_datetime, datetime_new. destruct dt; simpl.
  by destruct (_ && _).
Qed.

Lemma days_in_month_le_31 (y m : Z) : days_in_month y m ≤ 31.
Proof.
  unfold days_in_month, DAYS_IN_MONTH. destruct (_ && _); [lia|].
  destruct (Z.to_nat m) as [|[|[|[|[|[|[|[|[|[|[|[|[|[|]]]]]]]]]]]]]]; simpl; lia.
Qed.

#[local] Arguments pad2 : simpl never.
#[local] Arguments pad4 : simpl never.
#[local] Arguments py_int : simpl never.
#[local] Arguments alts_of : simpl never.

(** *** No NUL byte in the text that [isoformat] writes *)

Lemma str_contains_app (c : ascii) (a b : string) :
  str_contains c (a +:+ b) = str_contains c a || str_contains c b.
Proof.
  induction a as [|d a IH]; simpl; [done|]. by rewrite IH, orb_assoc.
Qed.

Lemma pad2_no_nul (n : Z) : 0 ≤ n < 100 → str_contains nul (pad2 n) = false.
Proof.
  intros Hn.
  assert (H : forallb (λ n, negb (str_contains nul (pad2 n))) (seqZ 0 100) = true)
    by (vm_compute; reflexivity).
  apply negb_true_iff. apply (forallb_seqZ _ _ _ H). lia.
Qed.

Lemma pad4_no_nul (n : Z) : 0 ≤ n < 10000 → str_contains nul (pad4 n) = false.
Proof.
  intros Hn.
  assert (H : forallb (λ n, negb (str_contains nul (pad4 n))) (seqZ 0 10000) = true)
    by (vm_compute; reflexivity).
  apply negb_true_iff. apply (forallb_seqZ _ _ _ H). lia.
Qed.

Lemma isoformat_no_nul (dt : datetime) :
  valid_datetime dt = true → str_contains nul (isoformat dt) = false.
Proof.
  intros Hvalid.
  destruct (valid_datetime_bounds dt Hvalid) as (Hy & Hm & Hd & HH & HM & HS).
  pose proof (days_in_month_le_31 (year dt) (month dt)) as H31.
  unfold isoformat. rewrite !str_contains_app.
  rewrite pad4_no_nul by lia. rewrite !pad2_no_nul by lia. reflexivity.
Qed.

(** [strptime] reads back the local time that [isoformat] writes. *)
Lemma strptime_isoformat (dt : datetime) :
  valid_datetime dt = true →
  strptime (isoformat dt) "%Y-%m-%dT%H:%M:%S" = Ok dt.
Proof.
  intros Hvalid.
  destruct (valid_datetime_bounds dt Hvalid) as (Hy & Hm & Hd & HH & HM & HS).
  pose proof (days_in_month_le_31 (year dt) (month dt)) as H31.
  unfold strptime. rewrite (isoformat_no_nul dt Hvalid).
  change (str_contains nul "%Y-%m-%dT%H:%M:%S") with false. cbn [orb].
  rewrite iso_format_items.
  assert (Hmatch :
    match_items
      [ (Some "Y"%char, alts_of "Y"); (None, [[lit "-"]]);
        (Some "m"%char, alts_of "m"); (None, [[lit "-"]]);
        (Some "d"%char, alts_of "d"); (None, [[lit "T"]]);
        (Some "H"%char, alts_of "H"); (None, [[lit ":"]]);
        (Some "M"%char, alts_of "M"); (None, [[lit ":"]]);
        (Some "S"%char, alts_of "S") ]
      (isoformat dt)
    = Some ([ (Some "Y"%char, pad4 (year dt)); (None, "-");
              (Some "m"%char, pad2 (month dt)); (None, "-");
              (Some "d"%char, pad2 (day dt)); (None, "T");
              (Some "H"%char, pad2 (hour dt)); (None, ":");
              (Some "M"%char, pad2 (minute dt)); (None, ":");
              (Some "S"%char, pad2 (second dt)) ], "")).
  { unfold isoformat. rewrite <- (string_app_nil_r (pad2 (second dt))).
    apply match_items_field;
      [by apply first_full_match_pad4; lia|repeat constructor|].
    apply match_items_field; [reflexivity|repeat constructor|].
    apply match_items_field;
      [apply (first_full_match_pad2 "m" 1 12); [vm_compute; reflexivity|lia]
      |repeat constructor|].
    apply match_items_field; [reflexivity|repeat constructor|].
    apply match_items_field;
      [apply (first_full_match_pad2 "d" 1 31); [vm_compute; reflexivity|lia]
      |repeat constructor|].
    apply match_items_field; [reflexivity|repeat constructor|].
    apply match_items_field;
      [apply (first_full_match_pad2 "H" 0 24); [vm_compute; reflexivity|lia]
      |repeat constructor|].
    apply match_items_field; [reflexivity|repeat constructor|].
    apply match_items_field;
      [apply (first_full_match_pad2 "M" 0 60); [vm_compute; reflexivity|lia]
      |repeat constructor|].
    apply match_items_field; [reflexivity|repeat constructor|].
    apply match_items_field;
      [apply (first_full_match_pad2 "S" 0 60); [vm_compute; reflexivity|lia]
      |repeat constructor|].
    reflexivity. }
  rewrite Hmatch. cbn [group Ascii.eqb Bool.eqb].
  rewrite py_int_pad4 by lia. rewrite !py_int_pad2 by lia.
  rewrite !bind_Ok. by apply valid_datetime_new.
Qed.

(** *** Calendar arithmetic *)

Lemma month_day_spec (leapyear : bool) (n : Z) :
  0 ≤ n < 365 → month_day_ok leapyear n = true.
Proof.
  intros Hn.
  assert (H : forallb (month_day_ok leapyear) (seqZ 0 365) = true)
    by (destruct leapyear; vm_compute; reflexivity).
  apply (forallb_seqZ _ _ _ H). lia.
Qed.

Lemma ord2ymd_unfold (n : Z) :
  ord2ymd n
  = let n := n - 1 in
    let n400 := n / 146097 in let n := n mod 146097 in
    let n100 := n / 36524 in let n := n mod 36524 in
    let n4 := n / 1461 in let n := n mod 1461 in
    let n1 := n / 365 in let n := n mod 365 in
    let y := n400 * 400 + 1 + n100 * 100 + n4 * 4 + n1 in
    if (n1 =? 4) || (n100 =? 4) then (y - 1, 12, 31)
    else
      let '(m, d) :=
        month_day n ((n1 =? 3) && (negb (n4 =? 24) || (n100 =? 3))) in
      (y, m, d).
Proof.
  unfold ord2ymd, month_day. cbv zeta.
  destruct (_ || _); [done|]. by destruct (_ <? _).
Qed.

(** The year whose digits in the 400/100/4/1-year cycles are given. *)
Lemma year_digits (c400 c100 c4 c1 : Z) :
  0 ≤ c400 → 0 ≤ c100 ≤ 3 → 0 ≤ c4 ≤ 24 → 0 ≤ c1 ≤ 3 →
  let y := c400 * 400 + 1 + c100 * 100 + c4 * 4 + c1 in
  days_before_year y = 146097 * c400 + 36524 * c100 + 1461 * c4 + 365 * c1
  ∧ is_leap y = (c1 =? 3) && (negb (c4 =? 24) || (c100 =? 3)).
Proof.
  intros H400 H100 H4 H1 y. subst y. split.
  - unfold days_before_year. cbv zeta.
    Z.div_mod_to_equations. lia.
  - unfold is_leap.
    destruct (Z.eqb_spec c1 3), (Z.eqb_spec c4 24), (Z.eqb_spec c100 3);
      repeat match goal with
      | |- context [?a mod ?b =? 0] => destruct (Z.eqb_spec (a mod b) 0)
      end; simpl; try reflexivity; exfalso;
      Z.div_mod_to_equations; lia.
Qed.

Lemma DAYS_IN_MONTH_feb : DAYS_IN_MONTH 2 = 28.
Proof. reflexivity. Qed.

Lemma ord2ymd_spec (n : Z) :
  1 ≤ n ≤ 3652059 →
  ∃ y m d,
    ord2ymd n = (y, m, d) ∧ ymd2ord y m d = n
    ∧ 1 ≤ y ≤ 9999 ∧ 1 ≤ m ≤ 12 ∧ 1 ≤ d ≤ days_in_month y m.
Proof.
  intros Hn. rewrite ord2ymd_unfold. cbv zeta.
  set (a := n - 1).
  set (n400 := a / 146097). set (r1 := a mod 146097).
  set (n100 := r1 / 36524). set (r2 := r1 mod 36524).
  set (n4 := r2 / 1461). set (r3 := r2 mod 1461).
  set (n1 := r3 / 365). set (r4 := r3 mod 365).
  assert (E1 : a = 146097 * n400 + r1 ∧ 0 ≤ r1 < 146097).
  { split; [apply Z.div_mod; lia|apply Z.mod_pos_bound; lia]. }
  assert (E2 : r1 = 36524 * n100 + r2 ∧ 0 ≤ r2 < 36524).
  { split; [apply Z.div_mod; lia|apply Z.mod_pos_bound; lia]. }
  assert (E3 : r2 = 1461 * n4 + r3 ∧ 0 ≤ r3 < 1461).
  { split; [apply Z.div_mod; lia|apply Z.mod_pos_bound; lia]. }
  assert (E4 : r3 = 365 * n1 + r4 ∧ 0 ≤ r4 < 365).
  { split; [apply Z.div_mod; lia|apply Z.mod_pos_bound; lia]. }
  assert (Ha : a = n - 1) by reflexivity.
  clearbody a n400 r1 n100 r2 n4 r3 n1 r4.
  destruct E1 as [E1 B1], E2 as [E2 B2], E3 as [E3 B3], E4 as [E4 B4].
  assert (H400 : 0 ≤ n400 ≤ 24) by lia.
  assert (H100 : 0 ≤ n100 ≤ 4) by lia.
  assert (H4 : 0 ≤ n4 ≤ 24) by lia.
  assert (H1 : 0 ≤ n1 ≤ 4) by lia.
  destruct ((n1 =? 4) || (n100 =? 4)) eqn:Hlast.
  - (* the last day of a leap year *)
    exists (n400 * 400 + 1 + n100 * 100 + n4 * 4 + n1 - 1), 12, 31.
    split; [done|].
    assert (Hyear : ∃ c100 c4,
              0 ≤ c100 ≤ 3 ∧ 0 ≤ c4 ≤ 24 ∧ (c4 = 24 → c100 = 3)
              ∧ n400 * 400 + 1 + n100 * 100 + n4 * 4 + n1 - 1
                = n400 * 400 + 1 + c100 * 100 + c4 * 4 + 3
              ∧ n = 146097 * n400 + 36524 * c100 + 1461 * c4 + 365 * 3 + 366).
    { apply orb_true_iff in Hlast as [H%Z.eqb_eq|H%Z.eqb_eq].
      - destruct (decide (n100 = 4)) as [Hc|Hc].
        + exists 3, 24. lia.
        + exists n100, n4. lia.
      - exists 3, 24. lia. }
    destruct Hyear as (c100 & c4 & Hc100 & Hc4 & Hcc & -> & Hnn).
    destruct (year_digits n400 c100 c4 3) as [Hdays Hleap]; [lia..|].
    cbv zeta in Hdays, Hleap.
    assert (Hl : is_leap (n400 * 400 + 1 + c100 * 100 + c4 * 4 + 3) = true).
    { rewrite Hleap. simpl. destruct (Z.eqb_spec c4 24), (Z.eqb_spec c100 3);
        simpl; try done. lia. }
    unfold ymd2ord, days_before_month, days_in_month. rewrite Hdays, Hl.
    change (DAYS_BEFORE_MONTH 12) with 334. change (DAYS_IN_MONTH 12) with 31.
    simpl. lia.
  - apply orb_false_iff in Hlast as [Hn1%Z.eqb_neq Hn100%Z.eqb_neq].
    destruct (year_digits n400 n100 n4 n1) as [Hdays Hleap]; [lia..|].
    cbv zeta in Hdays, Hleap. rewrite <- Hleap.
    set (y := n400 * 400 + 1 + n100 * 100 + n4 * 4 + n1) in *.
    pose proof (month_day_spec (is_leap y) r4 B4) as Hmd.
    unfold month_day_ok in Hmd.
    destruct (month_day r4 (is_leap y)) as [m d].
    repeat (apply andb_prop in Hmd as [Hmd ?]).
    repeat match goal with
    | H : (_ <=? _) = true |- _ => apply Z.leb_le in H
    | H : (_ =? _) = true |- _ => apply Z.eqb_eq in H
    end.
    exists y, m, d. split; [done|].
    unfold ymd2ord, days_before_month, days_in_month. rewrite Hdays.
    assert (Hdim : (if (m =? 2) && is_leap y then 29 else DAYS_IN_MONTH m)
                   = DAYS_IN_MONTH m + (if (m =? 2) && is_leap y then 1 else 0)).
    { destruct (Z.eqb_spec m 2) as [->|]; simpl; [|lia].
      destruct (is_leap y); simpl; [|lia]. by rewrite DAYS_IN_MONTH_feb. }
    rewrite Hdim. subst y. lia.
Qed.

(** Subtracting a number of seconds moves the count of seconds by as much,
    and leaves a date of the calendar; outside the years 1 to 9999 it is an
    [OverflowError]. *)
Lemma datetime_sub_spec (dt : datetime) (delta : Z) :
  let t := datetime_seconds dt - delta in
  (86400 ≤ t < 86400 * 3652060 →
   ∃ utc, datetime_sub dt delta = Ok utc ∧ valid_datetime utc = true
          ∧ datetime_seconds utc = t)
  ∧ (¬ 86400 ≤ t < 86400 * 3652060 → datetime_sub dt delta = Raise OverflowError).
Proof.
  intros t. unfold datetime_sub. fold t.
  set (ord := t / 86400). set (s := t mod 86400).
  assert (Et : t = 86400 * ord + s ∧ 0 ≤ s < 86400).
  { split; [apply Z.div_mod; lia|apply Z.mod_pos_bound; lia]. }
  clearbody ord s. destruct Et as [Et Hs]. split.
  - intros Ht.
    destruct (ord2ymd_spec ord) as (y & m & d & Hord & Hinv & Hy & Hm & Hd); [lia|].
    assert (Hrange : (1 <=? ord) && (ord <=? 3652059) = true).
    { apply andb_true_intro. split; apply Z.leb_le; lia. }
    rewrite Hrange, Hord. eexists. split; [reflexivity|].
    unfold valid_datetime, datetime_new, datetime_seconds. cbn [year month day hour minute second].
    rewrite Hinv.
    assert (Hfields : 0 ≤ s / 3600 ≤ 23 ∧ 0 ≤ s mod 3600 / 60 ≤ 59 ∧ 0 ≤ s mod 60 ≤ 59
                      ∧ s / 3600 * 3600 + s mod 3600 / 60 * 60 + s mod 60 = s).
    { Z.div_mod_to_equations. lia. }
    destruct Hfields as (HH & HM & HS & Hsum). split; [|lia].
    assert (Hcheck : (1 <=? y) && (y <=? 9999) && (1 <=? m) && (m <=? 12)
                     && (1 <=? d) && (d <=? days_in_month y m)
                     && (0 <=? s / 3600) && (s / 3600 <=? 23)
                     && (0 <=? s mod 3600 / 60) && (s mod 3600 / 60 <=? 59)
                     && (0 <=? s mod 60) && (s mod 60 <=? 59) = true).
    { repeat (apply andb_true_intro; split); apply Z.leb_le; lia. }
    by rewrite Hcheck.
  - intros Ht.
    assert (Hrange : (1 <=? ord) && (ord <=? 3652059) = false).
    { apply andb_false_iff.
      destruct (Z.leb_spec 1 ord), (Z.leb_spec ord 3652059); auto. lia. }
    by rewrite Hrange.
Qed.

Lemma timestamp_text_slices (dt : datetime) (frac : string) (sign sep : ascii)
    (oh om : Z) :
  String.length frac = 4%nat →
  let s := timestamp_text dt frac sign oh sep om in
  str_drop_last s 10 = isoformat dt
  ∧ str_slice s 24 26 = pad2 oh
  ∧ str_slice s 27 29 = pad2 om
  ∧ str_index s 23 = Ok sign.
Proof.
  intros Hfrac.
  destruct frac as [|f1 [|f2 [|f3 [|f4 [|]]]]]; try discriminate Hfrac.
  unfold timestamp_text, isoformat, pad4, pad2. repeat split.
Qed.

(** C7. On a timestamp written as [YYYY-MM-DDTHH:MM:SS], four characters of
    fraction, a sign, two digits of hours, a separator and two digits of
    minutes, [parse_iso8601] reads the local time from the prefix and the
    offset from the positions 23, 24-25 and 27-28, and returns the local
    time minus the signed offset; ["2016-06-01T10:00:00.000+03:00"] gives
    2016-06-01 07:00:00. *)
Theorem parse_iso8601_subtracts_offset :
  (∀ (dt : datetime) (frac : string) (sign sep : ascii) (oh om : Z),
     valid_datetime dt = true →
     String.length frac = 4%nat →
     0 ≤ oh < 100 → 0 ≤ om < 100 →
     let offset := (oh * 3600 + om * 60) * (if Ascii.eqb sign "+" then 1 else -1) in
     let utc_seconds := datetime_seconds dt - offset in
     parse_iso8601 (timestamp_text dt frac sign oh sep om) = datetime_sub dt offset
     ∧ (86400 ≤ utc_seconds < 86400 * 3652060 →
        ∃ utc, parse_iso8601 (timestamp_text dt frac sign oh sep om) = Ok utc
               ∧ valid_datetime utc = true
               ∧ datetime_seconds utc = utc_seconds))
  ∧ parse_iso8601 "2016-06-01T10:00:00.000+03:00" = Ok (mk_datetime 2016 6 1 7 0 0).
Proof.
  split; [|vm_compute; reflexivity].
  intros dt frac sign sep oh om Hvalid Hfrac Hoh Hom offset utc_seconds.
  destruct (timestamp_text_slices dt frac sign sep oh om Hfrac)
    as (Hprefix & Hhours & Hminutes & Hsign).
  assert (Hparse : parse_iso8601 (timestamp_text dt frac sign oh sep om)
                   = datetime_sub dt offset).
  { unfold parse_iso8601. rewrite Hprefix, Hhours, Hminutes, Hsign.
    rewrite strptime_isoformat by done. rewrite !py_int_pad2 by done.
    reflexivity. }
  split; [done|]. rewrite Hparse.
  apply (datetime_sub_spec dt offset).
Qed.

Lemma parse_iso8601_subtracts_offset_witness :
  let dt := mk_datetime 2016 3 1 0 10 0 in
  let text := timestamp_text dt ".123" "+" 3 ":" 30 in
  text = "2016-03-01T00:10:00.123+03:30"
  ∧ parse_iso8601 text = datetime_sub dt (3 * 3600 + 30 * 60)
  ∧ ∃ utc, parse_iso8601 text = Ok utc ∧ valid_datetime utc = true
           ∧ datetime_seconds utc = datetime_seconds dt - (3 * 3600 + 30 * 60).
Proof.
  intros dt text. split; [reflexivity|].
  destruct (proj1 parse_iso8601_subtracts_offset dt ".123" "+"%char ":"%char 3 30)
    as [Hsub Hutc]; [reflexivity|reflexivity|lia|lia|].
  split; [exact Hsub|]. apply Hutc. vm_compute. split; [discriminate|reflexivity].
Defined.

(** The positions are fixed: the same instant written without a fraction
    of a second is not parsed. *)
Example parse_iso8601_without_fraction :
  parse_iso8601 "2016-06-01T10:00:00+03:00" = Raise ValueError.
Proof. vm_compute. reflexivity. Qed.

(** * Further properties: entities and the construction of a Response *)

(** X1. No call of [Post] returns: with a positional argument, binding the
    arguments is a [TypeError]; with keyword arguments only, the body ends
    in [Thread(post["thread"])], a [TypeError] of the same kind, unless a
    lookup or a timestamp fails before. *)
Theorem Post_init_never_returns (args : list json) (post : gmap string json) :
  (∃ e, Post_init args post = Raise e)
  ∧ (args ≠ [] → Post_init args post = Raise TypeError)
  ∧ (∀ p : Post, Post_init args post ≠ Ok p).
Proof.
  assert (H : ∃ e, Post_init args post = Raise e).
  { unfold Post_init. destruct args; [|by eauto].
    destruct (bool_decide _); [by eauto|].
    repeat match goal with
    | |- ∃ e, (?m ≫= _) = Raise e => destruct m; simpl; [|by eauto]
    end.
    by eauto. }
  split; [done|]. split.
  - by destruct args.
  - intros p Hp. destruct H as [e He]. congruence.
Qed.

(** X2. A call of [Thread] with keyword arguments only: a keyword named
    ['self'] is a [TypeError], a second value for the first parameter.
    Without such a keyword: without ['title'] the call raises
    [AttributeError], even when ['title_full'] is given; without
    ['published'] it raises [KeyError]; otherwise the Thread has
    ['title_full'] or, in its absence, the title, and [None] for an absent
    section, section title or country. A positional argument is a
    [TypeError]. *)
Theorem Thread_init_keywords (thread : gmap string json) :
  (is_Some (thread !! "self") → Thread_init [] thread = Raise TypeError)
  ∧ (thread !! "self" = None → thread !! "title" = None →
     Thread_init [] thread = Raise AttributeError)
  ∧ (thread !! "self" = None →
     is_Some (thread !! "title") → thread !! "published" = None →
     Thread_init [] thread = Raise KeyError)
  ∧ (∀ title (s : string) dt,
       thread !! "self" = None →
       thread !! "title" = Some title →
       thread !! "published" = Some (JStr s) →
       parse_iso8601 s = Ok dt →
       Thread_init [] thread
       = Ok (mk_Thread thread
               (default JNull (thread !! "site_section"))
               (default JNull (thread !! "section_title"))
               (default title (thread !! "title_full"))
               dt
               (default JNull (thread !! "country"))))
  ∧ (∀ a args, Thread_init (a :: args) thread = Raise TypeError).
Proof.
  unfold Thread_init, Struct_init, dict_get, dict_getitem, json_getitem.
  split; [|split; [|split; [|split]]].
  - intros Hself. by rewrite bool_decide_eq_true_2.
  - intros Hself ->. rewrite bool_decide_eq_false_2; [done|].
    rewrite Hself. by intros [? ?].
  - intros Hself [t ->] ->. rewrite bool_decide_eq_false_2; [done|].
    rewrite Hself. by intros [? ?].
  - intros title s dt Hself -> -> Hdt.
    rewrite bool_decide_eq_false_2 by (rewrite Hself; by intros [? ?]).
    simpl. by rewrite Hdt.
  - done.
Qed.

Lemma Thread_init_keywords_witness :
  let thread : gmap string json :=
    <["title" := JStr "short"]>
      (<["published" := JStr "2016-06-01T10:00:00.000+03:00"]>
         {["country" := JStr "US"]}) in
  Thread_init [] (<["self" := JNull]> thread) = Raise TypeError
  ∧ Thread_init [] (delete "title" thread) = Raise AttributeError
  ∧ Thread_init [] (delete "published" thread) = Raise KeyError
  ∧ Thread_init [] thread
    = Ok (mk_Thread thread JNull JNull (JStr "short")
            (mk_datetime 2016 6 1 7 0 0) (JStr "US")).
Proof.
  intros thread. split; [|split; [|split]].
  - apply (proj1 (Thread_init_keywords _)). by eexists; vm_compute.
  - apply (proj1 (proj2 (Thread_init_keywords _))); vm_compute; reflexivity.
  - apply (proj1 (proj2 (proj2 (Thread_init_keywords _))));
      [vm_compute; reflexivity|by eexists; vm_compute|vm_compute; reflexivity].
  - apply (proj1 (proj2 (proj2 (proj2 (Thread_init_keywords thread))))
             (JStr "short") "2016-06-01T10:00:00.000+03:00");
      vm_compute; reflexivity.
Defined.

Section ResponseInit.

Context (urljoin : string → json → lib_result string).
Context (urlparse_query : json → lib_result string).
Context (parse_qs : string → gmap string (list string)).

(** X3. A decoded page that has every field, a link that joins and carries
    a [ts] parameter, and an empty list of posts, makes a Response with the
    page's values: the joined link as [next], the first [ts] value as
    [next_ts]. The status code and the body text play no part. *)
Theorem Response_init_without_posts (resp : http_response) (sess : Session)
    (page : gmap string json) (total nx left more : json)
    (joined query ts : string) (tss : list string) :
  body resp = Some (JObj page) →
  page !! "totalResults" = Some total →
  page !! "next" = Some nx →
  urljoin (url resp) nx = LibOk joined →
  urlparse_query nx = LibOk query →
  parse_qs query !! "ts" = Some (ts :: tss) →
  page !! "requestsLeft" = Some left →
  page !! "moreResultsAvailable" = Some more →
  page !! "posts" = Some (JArr []) →
  Response_init urljoin urlparse_query parse_qs resp sess
  = Ok (mk_Response resp sess total joined ts left more []).
Proof.
  intros Hbody Htotal Hnext Hjoin Hparse Hts Hleft Hmore Hposts.
  unfold Response_init, extract_next_ts, http_json, json_getitem.
  rewrite Hbody. simpl. rewrite Htotal, Hnext. simpl. rewrite Hjoin, Hparse. simpl.
  rewrite Hts. simpl. by rewrite Hleft, Hmore, Hposts.
Qed.

(** X4. The same page with at least one post cannot be made a Response:
    the constructor calls [Post(post)] on the first one and raises
    [TypeError]. *)
Theorem Response_init_with_posts_raises (resp : http_response) (sess : Session)
    (page : gmap string json) (total nx left more post : json)
    (joined query : string) (tss : list string) (posts : list json) :
  body resp = Some (JObj page) →
  page !! "totalResults" = Some total →
  page !! "next" = Some nx →
  urljoin (url resp) nx = LibOk joined →
  urlparse_query nx = LibOk query →
  parse_qs query !! "ts" = Some tss → tss ≠ [] →
  page !! "requestsLeft" = Some left →
  page !! "moreResultsAvailable" = Some more →
  page !! "posts" = Some (JArr (post :: posts)) →
  Response_init urljoin urlparse_query parse_qs resp sess = Raise TypeError.
Proof.
  intros Hbody Htotal Hnext Hjoin Hparse Hts Hne Hleft Hmore Hposts.
  unfold Response_init, extract_next_ts, http_json, json_getitem.
  rewrite Hbody. simpl. rewrite Htotal, Hnext. simpl. rewrite Hjoin, Hparse. simpl.
  rewrite Hts. destruct tss; [done|]. simpl. by rewrite Hleft, Hmore, Hposts.
Qed.

End ResponseInit.

Lemma Response_init_without_posts_witness :
  let resp := sample_page 500 (Some (JStr "http://webhose.io/search?ts=3")) 1 in
  let sess := mk_Session (VStr "abc") in
  Response_init sample_urljoin sample_urlparse_query sample_parse_qs resp sess
  = Ok (mk_Response resp sess (JInt 7) "http://webhose.io/search?ts=3" "3"
          (JInt 99) (JInt 1) []).
Proof.
  intros resp sess.
  eapply (Response_init_without_posts sample_urljoin sample_urlparse_query
            sample_parse_qs resp sess); vm_compute; reflexivity.
Defined.

Lemma Response_init_with_posts_raises_witness :
  let page : gmap string json :=
    <["totalResults" := JInt 1]> (<["requestsLeft" := JInt 99]>
      (<["moreResultsAvailable" := JInt 0]>
         (<["next" := JStr "http://webhose.io/search?ts=3"]>
            {["posts" := JArr [JObj {["uuid" := JStr "p1"]}]]}))) in
  let resp := mk_http_response "http://webhose.io/search?q=cats" 200 "" (Some (JObj page)) in
  Response_init sample_urljoin sample_urlparse_query sample_parse_qs resp
    (mk_Session (VStr "abc"))
  = Raise TypeError.
Proof.
  intros page resp.
  eapply (Response_init_with_posts_raises sample_urljoin sample_urlparse_query
            sample_parse_qs resp (mk_Session (VStr "abc")));
    try (vm_compute; reflexivity). discriminate.
Defined.

(** * Further properties: the query builder *)

Lemma as_strs_raises_type (l : list value) :
  raises_only attribute_or_type_error (as_strs l).
Proof.
  induction l as [|x l IH]; simpl; [apply raises_only_Ok|].
  destruct x; try (apply raises_only_Raise; by right).
  apply raises_only_bind; [apply IH|]. intros ?. apply raises_only_Ok.
Qed.

Lemma py_join_raises_type (sep : string) (l : list value) :
  raises_only attribute_or_type_error (py_join sep l).
Proof.
  unfold py_join. apply raises_only_bind; [apply as_strs_raises_type|].
  intros ?. apply raises_only_Ok.
Qed.

Lemma getattr_raises_attribute self (f : string) :
  raises_only attribute_or_type_error (getattr self f).
Proof.
  unfold getattr. destruct (self !! f); [apply raises_only_Ok|].
  apply raises_only_Raise. by left.
Qed.

Lemma filter_set_raises_attribute self (l : list string) :
  raises_only attribute_or_type_error (filter_set self l).
Proof.
  induction l as [|x l IH]; simpl; [apply raises_only_Ok|].
  apply raises_only_bind; [apply getattr_raises_attribute|]. intros v.
  apply raises_only_bind; [apply IH|]. intros keep. apply raises_only_Ok.
Qed.

Lemma append_if_raises_attribute self (f : string) term (qs : list value) :
  (∀ v, raises_only attribute_or_type_error (term v)) →
  raises_only attribute_or_type_error (append_if self f term qs).
Proof.
  intros Hterm. unfold append_if.
  apply raises_only_bind; [apply getattr_raises_attribute|]. intros v.
  destruct (truthy v); [|apply raises_only_Ok].
  apply raises_only_bind; [apply Hterm|]. intros ?. apply raises_only_Ok.
Qed.

Section QueryExtras.

Context (ALL_FIELDS LIST_FIELDS DIRECT_FIELDS : list string).
Implicit Types (self : gmap string value) (f : string) (v : value).

(** X5. A call of [Query] with a keyword named ['self'] is a [TypeError].
    Any other call returns a Query, and looks at the keyword arguments only
    under the names of [ALL_FIELDS]: arguments that agree on those names
    give the same Query, whatever else they contain, and the attributes
    the constructor sets are exactly the names of [ALL_FIELDS]. *)
Theorem Query_call_ignores_unknown :
  (∀ kwargs : gmap string value,
     is_Some (kwargs !! "self") →
     Query_call ALL_FIELDS LIST_FIELDS kwargs = Raise TypeError)
  ∧ (∀ kwargs kwargs' : gmap string value,
       kwargs !! "self" = None → kwargs' !! "self" = None →
       (∀ f, f ∈ ALL_FIELDS → kwargs !! f = kwargs' !! f) →
       ∃ q, Query_call ALL_FIELDS LIST_FIELDS kwargs = Ok q
            ∧ Query_call ALL_FIELDS LIST_FIELDS kwargs' = Ok q
            ∧ ∀ f, is_Some (q !! f) ↔ f ∈ ALL_FIELDS).
Proof.
  unfold Query_call. split.
  - intros kwargs Hself. by rewrite bool_decide_eq_true_2.
  - intros kwargs kwargs' Hself Hself' Hagree.
    rewrite !bool_decide_eq_false_2
      by (first [rewrite Hself|rewrite Hself']; by intros [? ?]).
    exists (Query_init ALL_FIELDS LIST_FIELDS kwargs).
    split; [done|]. split.
    + f_equal. apply map_eq. intros f. rewrite !Query_init_lookup.
      destruct (decide (f ∈ ALL_FIELDS)) as [Hin|Hnin].
      * rewrite !bool_decide_eq_true_2 by done. by rewrite (Hagree f Hin).
      * by rewrite !bool_decide_eq_false_2.
    + intros f. rewrite Query_init_lookup.
      destruct (decide (f ∈ ALL_FIELDS)) as [Hin|Hnin].
      * rewrite bool_decide_eq_true_2 by done. split; [done|by eexists].
      * rewrite bool_decide_eq_false_2 by done. split; [by intros [? [=]]|done].
Qed.

(** X6. A Query constructed without any filter, or with every filter
    [None], renders the empty string. *)
Theorem query_string_no_filter (kwargs : gmap string value) :
  settings_cover ALL_FIELDS LIST_FIELDS DIRECT_FIELDS = true →
  (∀ f v, kwargs !! f = Some v → v = VNone) →
  query_string LIST_FIELDS DIRECT_FIELDS (Query_init ALL_FIELDS LIST_FIELDS kwargs)
  = Ok "".
Proof.
  intros Hcov Hnone.
  assert (Hst : ∀ f, stored LIST_FIELDS f (default VNone (kwargs !! f)) = VNone).
  { intros f. destruct (kwargs !! f) as [v|] eqn:Hk; simpl.
    - rewrite (Hnone f v Hk). by apply stored_not_str.
    - by apply stored_not_str. }
  rewrite query_string_refines; cycle 1.
  { apply wf_Query_init; [done| |]; intros f _; by rewrite Hst. }
  unfold spec_query_string.
  replace (flat_map _ _) with (@nil string); [done|].
  symmetry. induction (spec_slots LIST_FIELDS DIRECT_FIELDS) as [|sl l IH];
    simpl; [done|].
  rewrite IH, spec_clause_unset; [done|].
  rewrite Query_init_lookup. destruct (bool_decide _); [|done].
  simpl. by rewrite Hst.
Qed.

(** X7. On ASCII text -- the names of the tables and every string the
    Query holds, so that [str] and [unicode] mix without a coercion error
    -- [query_string] never raises anything but [AttributeError] (an
    attribute that does not exist, or [replace] on a value that is not a
    string) or [TypeError] (a value that cannot be iterated or joined). *)
Theorem query_string_raises_attribute_or_type self (e : exn) :
  forallb ascii_string (DIRECT_FIELDS ++ LIST_FIELDS) = true →
  map_Forall (λ _ v, ascii_value v = true) self →
  query_string LIST_FIELDS DIRECT_FIELDS self = Raise e →
  e = AttributeError ∨ e = TypeError.
Proof.
  intros _ _. revert e. change (raises_only attribute_or_type_error
                      (query_string LIST_FIELDS DIRECT_FIELDS self)).
  unfold query_string.
  repeat (apply raises_only_bind;
          [apply append_if_raises_attribute; intros v; unfold py_replace_space;
           repeat match goal with
           | |- raises_only _ (Ok _) => apply raises_only_Ok
           | |- raises_only _ (Raise AttributeError) =>
               apply raises_only_Raise; by left
           | |- raises_only _ (_ ≫= _) => apply raises_only_bind; [|intros ?]
           | |- raises_only _ (match ?x with _ => _ end) => destruct x
           end
          |intros ?]).
  apply raises_only_bind; [apply filter_set_raises_attribute|intros ?].
  apply raises_only_bind.
  { apply raises_only_mapM. intros f. unfold direct_string.
    apply raises_only_bind; [apply getattr_raises_attribute|].
    intros ?. apply raises_only_Ok. }
  intros ?.
  apply raises_only_bind; [apply filter_set_raises_attribute|intros ?].
  apply raises_only_bind; [|intros ?; apply py_join_raises_type].
  apply raises_only_mapM. intros f. unfold list_string.
  apply raises_only_bind; [apply getattr_raises_attribute|]. intros v.
  apply raises_only_bind.
  { unfold py_iter. destruct v; try apply raises_only_Ok;
      apply raises_only_Raise; by right. }
  intros ?. apply raises_only_bind; [apply py_join_raises_type|].
  intros ?. apply raises_only_Ok.
Qed.

Lemma filter_named_slot (sl : string * (value → string)) :
  sl ∈ named_slots →
  List.filter (λ sl', String.eqb sl.1 sl'.1) named_slots = [sl].
Proof.
  unfold named_slots. rewrite !elem_of_cons.
  intros [->|[->|[->|[->|[->|[->|[->|[->|[->|[]%elem_of_nil]]]]]]]]];
    reflexivity.
Qed.

(** X8. A Query constructed with one of the nine bespoke filters alone,
    set to a true value (a string, for the two free-text filters), renders
    exactly the clause of that filter. *)
Theorem query_string_single_named (sl : string * (value → string)) v :
  settings_cover ALL_FIELDS LIST_FIELDS DIRECT_FIELDS = true →
  sl ∈ named_slots →
  sl.1 ∉ DIRECT_FIELDS → sl.1 ∉ LIST_FIELDS →
  truthy v = true →
  (sl.1 ∈ ["all_terms"; "some_terms"] → is_basestring v = true) →
  query_string LIST_FIELDS DIRECT_FIELDS
    (Query_init ALL_FIELDS LIST_FIELDS {[sl.1 := v]})
  = Ok (sl.2 v).
Proof.
  intros Hcov Hsl Hd Hl Hv Htext.
  assert (Hst : stored LIST_FIELDS sl.1 v = v) by by apply stored_scalar.
  rewrite query_string_single; [|done| |done]; cycle 1.
  { intros Hin. rewrite Hst. unfold str_or_falsy. rewrite (Htext Hin).
    apply orb_true_r. }
  rewrite (filter_spec_slots _ _ (String.eqb sl.1)).
  rewrite !filter_eqb_absent by done.
  rewrite (filter_named_slot sl Hsl).
  cbn [map app flat_map]. unfold spec_clause.
  rewrite Query_init_lookup, bool_decide_eq_true_2; cycle 1.
  { apply (settings_cover_elem _ _ _ _ Hcov). apply elem_of_app. left.
    by apply list_elem_of_fmap_2. }
  rewrite lookup_singleton_eq. cbn [default from_option id]. rewrite Hst, Hv.
  reflexivity.
Qed.

End QueryExtras.

Lemma query_string_no_filter_witness :
  query_string sample_LIST_FIELDS sample_DIRECT_FIELDS
    (Query_init sample_ALL_FIELDS sample_LIST_FIELDS {["site" := VNone]})
  = Ok "".
Proof.
  apply (query_string_no_filter sample_ALL_FIELDS sample_LIST_FIELDS
           sample_DIRECT_FIELDS); [vm_compute; reflexivity|].
  intros f v Hk. destruct (decide (f = "site")) as [->|Hne].
  - rewrite lookup_singleton_eq in Hk. congruence.
  - by rewrite lookup_singleton_ne in Hk.
Defined.

Lemma Query_call_ignores_unknown_witness :
  Query_call sample_ALL_FIELDS sample_LIST_FIELDS
    (<["self" := VInt 1]> {["author" := VStr "bob"]})
  = Raise TypeError
  ∧ ∃ q, Query_call sample_ALL_FIELDS sample_LIST_FIELDS
           (<["no_such_filter" := VStr "x"]> {["author" := VStr "bob"]}) = Ok q
         ∧ Query_call sample_ALL_FIELDS sample_LIST_FIELDS {["author" := VStr "bob"]}
           = Ok q
         ∧ ∀ f, is_Some (q !! f) ↔ f ∈ sample_ALL_FIELDS.
Proof.
  split.
  - apply (proj1 (Query_call_ignores_unknown sample_ALL_FIELDS sample_LIST_FIELDS)).
    by eexists; vm_compute.
  - apply (proj2 (Query_call_ignores_unknown sample_ALL_FIELDS sample_LIST_FIELDS));
      [vm_compute; reflexivity|vm_compute; reflexivity|].
    intros f Hf. apply lookup_insert_ne. intros <-.
    revert Hf. vm_compute. intros Hf.
    repeat (apply elem_of_cons in Hf as [Hf|Hf]; [discriminate Hf|]).
    by apply elem_of_nil in Hf.
Defined.

Lemma query_string_raises_attribute_or_type_witness :
  let self : gmap string value :=
    Query_init sample_ALL_FIELDS sample_LIST_FIELDS {["all_terms" := VBool true]} in
  query_string sample_LIST_FIELDS sample_DIRECT_FIELDS self = Raise TypeError
  ∧ (TypeError = AttributeError ∨ TypeError = TypeError).
Proof.
  intros self. split; [vm_compute; reflexivity|].
  apply (query_string_raises_attribute_or_type sample_LIST_FIELDS
           sample_DIRECT_FIELDS self).
  - vm_compute. reflexivity.
  - apply (bool_decide_unpack _). vm_compute. reflexivity.
  - vm_compute. reflexivity.
Defined.

Lemma query_string_single_named_witness :
  query_string sample_LIST_FIELDS sample_DIRECT_FIELDS
    (Query_init sample_ALL_FIELDS sample_LIST_FIELDS
       {["exact_phrase" := VStr "hello world"]})
  = Ok (String dquote "hello world" +:+ String dquote "").
Proof.
  apply (query_string_single_named sample_ALL_FIELDS sample_LIST_FIELDS
           sample_DIRECT_FIELDS (nth 1 named_slots ("", py_str))
           (VStr "hello world"));
    [vm_compute; reflexivity|simpl; in_list|compute_done|compute_done
    |reflexivity|reflexivity].
Defined.

(** * Further properties: the session and the module functions *)

(** X9. Searching with a Query object is searching with the string it
    renders. *)
Theorem search_query_or_rendered (LIST_FIELDS DIRECT_FIELDS : list string)
    (urljoin : string → json → lib_result string)
    (urlparse_query : json → lib_result string)
    (parse_qs : string → gmap string (list string)) (world : Type)
    (requests_get :
       string → gmap string value → world → lib_result http_response * world)
    (self : Session) (q : gmap string value) (s : string)
    (tok since : value) (w : world) :
  query_string LIST_FIELDS DIRECT_FIELDS q = Ok s →
  Session_search LIST_FIELDS DIRECT_FIELDS urljoin urlparse_query parse_qs world
    requests_get self (QQuery q) tok since w
  = Session_search LIST_FIELDS DIRECT_FIELDS urljoin urlparse_query parse_qs world
      requests_get self (QOther (VStr s)) tok since w.
Proof. intros Hq. unfold Session_search, search_query. by rewrite Hq. Qed.

Lemma search_query_or_rendered_witness :
  let q : gmap string value :=
    Query_init sample_ALL_FIELDS sample_LIST_FIELDS {["site" := VStr "cnn.com"]} in
  let page := sample_page 200 (Some (JStr "http://webhose.io/search?ts=3")) 0 in
  Session_search sample_LIST_FIELDS sample_DIRECT_FIELDS sample_urljoin
    sample_urlparse_query sample_parse_qs sample_world (sample_requests_get page)
    (mk_Session (VStr "abc")) (QQuery q) VNone VNone []
  = Session_search sample_LIST_FIELDS sample_DIRECT_FIELDS sample_urljoin
      sample_urlparse_query sample_parse_qs sample_world (sample_requests_get page)
      (mk_Session (VStr "abc")) (QOther (VStr "(site:cnn.com)")) VNone VNone [].
Proof.
  intros q page.
  apply (search_query_or_rendered sample_LIST_FIELDS sample_DIRECT_FIELDS
           sample_urljoin sample_urlparse_query sample_parse_qs sample_world
           (sample_requests_get page) (mk_Session (VStr "abc")) q).
  vm_compute. reflexivity.
Defined.

(** X10. Without a token, or with a Query that does not render, [search]
    raises before any request: the exception is the same whatever the
    network would answer, and the world is left as it was. *)
Theorem search_fails_before_request (LIST_FIELDS DIRECT_FIELDS : list string)
    (urljoin : string → json → lib_result string)
    (urlparse_query : json → lib_result string)
    (parse_qs : string → gmap string (list string)) (world : Type)
    (self : Session) (query : query_arg) (tok since : value) :
  (tok = VNone ∧ token self = VNone)
  ∨ (∃ e, search_query LIST_FIELDS DIRECT_FIELDS query = Raise e) →
  ∃ e, ∀ requests_get (w : world),
    Session_search LIST_FIELDS DIRECT_FIELDS urljoin urlparse_query parse_qs
      world requests_get self query tok since w
    = (Raise e, w).
Proof.
  intros Hcase.
  destruct (decide (tok = VNone ∧ token self = VNone)) as [[-> Hself]|Hno].
  - eexists. intros requests_get w. unfold Session_search. by rewrite Hself.
  - destruct Hcase as [Hboth|[e He]]; [done|].
    exists e. intros requests_get w. unfold Session_search. rewrite He.
    destruct tok, (token self); try done. by destruct Hno.
Qed.

Lemma search_fails_before_request_witness :
  ∃ e, ∀ requests_get (w : sample_world),
    Session_search sample_LIST_FIELDS sample_DIRECT_FIELDS sample_urljoin
      sample_urlparse_query sample_parse_qs sample_world requests_get
      (mk_Session (VStr "abc"))
      (QQuery (Query_init sample_ALL_FIELDS sample_LIST_FIELDS
                 {["some_terms" := VInt 3]}))
      VNone VNone w
    = (Raise e, w).
Proof.
  apply search_fails_before_request. right. eexists. vm_compute. reflexivity.
Defined.

(** X11. The request of [search] has the parameters [q] and [token], and
    [ts] exactly when [since] is a true value: [since=0] or [since=""]
    sends no cursor. *)
Theorem search_since_parameter (LIST_FIELDS DIRECT_FIELDS : list string)
    (urljoin : string → json → lib_result string)
    (urlparse_query : json → lib_result string)
    (parse_qs : string → gmap string (list string)) (world : Type)
    (self : Session) (query : query_arg) (tok since q : value) :
  ¬ (tok = VNone ∧ token self = VNone) →
  search_query LIST_FIELDS DIRECT_FIELDS query = Ok q →
  ∃ params : gmap string value,
    params !! "ts" = (if truthy since then Some since else None)
    ∧ (∀ name, is_Some (params !! name)
               ↔ name = "q" ∨ name = "token" ∨ (name = "ts" ∧ truthy since = true))
    ∧ ∃ k, ∀ requests_get (w : world),
        Session_search LIST_FIELDS DIRECT_FIELDS urljoin urlparse_query parse_qs
          world requests_get self query tok since w
        = k (requests_get "http://webhose.io/search" params w).
Proof.
  intros Hno Hq. exists (search_params self q tok since). split; [|split].
  - unfold search_params. destruct (truthy since).
    + by rewrite lookup_insert_eq.
    + by rewrite !lookup_insert_ne.
  - intros name. unfold search_params.
    destruct (truthy since);
      destruct (decide (name = "ts")) as [Ets|?];
      destruct (decide (name = "token")) as [Etoken|?];
      destruct (decide (name = "q")) as [Eq|?]; try congruence; subst;
      rewrite ?lookup_insert_eq;
      repeat (rewrite lookup_insert_ne by done; rewrite ?lookup_insert_eq);
      rewrite ?lookup_empty;
      (split;
       [intros H; first [by destruct H as [? [=]]|auto 6]
       |intros H; first [by eexists|destruct H as [?|[?|[? ?]]]; congruence]]).
  - eexists (λ reply, match reply with
                      | (LibRaise cls, w') => (Raise (LibraryError cls), w')
                      | (LibOk resp, w') =>
                          if negb (status_code resp =? 200)
                          then (Raise (Exception (text resp)), w')
                          else (Response_init urljoin urlparse_query parse_qs
                                  resp self, w')
                      end).
    intros requests_get w. by apply search_unfold.
Qed.

Lemma search_since_parameter_witness :
  ∃ params : gmap string value,
    params !! "ts" = (if truthy (VInt 0) then Some (VInt 0) else None)
    ∧ (∀ name, is_Some (params !! name)
               ↔ name = "q" ∨ name = "token"
                 ∨ (name = "ts" ∧ truthy (VInt 0) = true))
    ∧ ∃ k, ∀ requests_get (w : sample_world),
        Session_search sample_LIST_FIELDS sample_DIRECT_FIELDS sample_urljoin
          sample_urlparse_query sample_parse_qs sample_world requests_get
          (mk_Session (VStr "abc")) (QOther (VStr "cats")) VNone (VInt 0) w
        = k (requests_get "http://webhose.io/search" params w).
Proof.
  apply (search_since_parameter _ _ _ _ _ _ _ _ _ _ (VStr "cats"));
    [intros [_ [=]]|reflexivity].
Defined.

(** X17. The shared session of the module starts without a token: the
    module function [search], called without one, raises
    [TokenMissingException] and sends nothing. After [config(t)] with [t]
    not [None], the same call sends one request whose token is [t]; a
    later [config] replaces the token. *)
Theorem module_search_after_config (LIST_FIELDS DIRECT_FIELDS : list string)
    (urljoin : string → json → lib_result string)
    (urlparse_query : json → lib_result string)
    (parse_qs : string → gmap string (list string)) (world : Type) :
  (∀ requests_get (query : query_arg) (since : value) (w : world),
     module_search LIST_FIELDS DIRECT_FIELDS urljoin urlparse_query parse_qs
       world requests_get module_session query VNone since w
     = (Raise (TokenMissingException "No token defined for webhose API request"), w))
  ∧ (∀ (t : value) (shared : Session) (query : query_arg) (since q : value),
       t ≠ VNone →
       search_query LIST_FIELDS DIRECT_FIELDS query = Ok q →
       ∃ params : gmap string value,
         params !! "q" = Some q ∧ params !! "token" = Some t
         ∧ ∃ k, ∀ requests_get (w : world),
             module_search LIST_FIELDS DIRECT_FIELDS urljoin urlparse_query
               parse_qs world requests_get (config t shared) query VNone since w
             = k (requests_get "http://webhose.io/search" params w))
  ∧ (∀ (t t' : value) (shared : Session),
       token (config t' (config t shared)) = t').
Proof.
  split; [|split].
  - intros requests_get query since w. reflexivity.
  - intros t shared query since q Ht Hq.
    exists (search_params (config t shared) q VNone since). split; [|split].
    + unfold search_params. destruct (truthy since);
        rewrite ?lookup_insert_ne by done; by rewrite lookup_insert_eq.
    + unfold search_params. destruct (truthy since);
        rewrite ?lookup_insert_ne by done; by rewrite lookup_insert_eq.
    + eexists (λ reply, match reply with
                        | (LibRaise cls, w') => (Raise (LibraryError cls), w')
                        | (LibOk resp, w') =>
                            if negb (status_code resp =? 200)
                            then (Raise (Exception (text resp)), w')
                            else (Response_init urljoin urlparse_query parse_qs
                                    resp (config t shared), w')
                        end).
      intros requests_get w. unfold module_search.
      apply search_unfold; [|done]. by intros [_ ?].
  - done.
Qed.

Lemma module_search_after_config_witness :
  ∃ params : gmap string value,
    params !! "q" = Some (VStr "cats") ∧ params !! "token" = Some (VStr "abc")
    ∧ ∃ k, ∀ requests_get (w : sample_world),
        module_search sample_LIST_FIELDS sample_DIRECT_FIELDS sample_urljoin
          sample_urlparse_query sample_parse_qs sample_world requests_get
          (config (VStr "abc") module_session) (QOther (VStr "cats")) VNone VNone w
        = k (requests_get "http://webhose.io/search" params w).
Proof.
  apply (proj1 (proj2 (module_search_after_config sample_LIST_FIELDS
                         sample_DIRECT_FIELDS sample_urljoin
                         sample_urlparse_query sample_parse_qs sample_world)));
    [discriminate|reflexivity].
Defined.

(** * Further properties: iterating over several pages *)

Section IterationTheory.

Context (urljoin : string → json → lib_result string).
Context (urlparse_query : json → lib_result string).
Context (parse_qs : string → gmap string (list string)).
Context (world : Type).
Context (requests_get :
  string → gmap string value → world → lib_result http_response * world).

#[local] Abbreviation run_gen :=
  (gen_run urljoin urlparse_query parse_qs world requests_get).
#[local] Abbreviation fetch :=
  (get_next urljoin urlparse_query parse_qs world requests_get).
#[local] Abbreviation chain :=
  (page_chain urljoin urlparse_query parse_qs world requests_get).

(** The six assignments, as one update. *)
Lemma turn_page_fields (self r : Response) :
  turn_page self r
  = mk_Response (response self) (session self) (total r) (next r) (next_ts r)
      (left r) (more r) (posts r).
Proof. reflexivity. Qed.

Lemma foldl_turn_page (self : Response) (pages : list Response) :
  foldl turn_page self pages
  = match last pages with
    | Some r => turn_page self r
    | None => self
    end.
Proof.
  revert self. induction pages as [|r pages IH]; intros self; [done|].
  cbn [foldl]. rewrite IH. destruct pages as [|r' pages]; [done|].
  rewrite last_cons_cons.
  destruct (last (r' :: pages)) eqn:E; [done|by apply last_None in E].
Qed.

(** Yielding the posts still pending, then going on. *)
Lemma gen_run_yields (self : Response) (ref : resp_ref) (w : world)
    (pending : list Post) (fuel : nat) :
  run_gen (length pending + fuel) (mk_gen self ref (PcFor pending)) w
  = let '(evs, g, w') := run_gen fuel (mk_gen self ref (PcFor [])) w in
    (map EvYield pending ++ evs, g, w').
Proof.
  induction pending as [|post pending IH].
  - simpl. by destruct (run_gen fuel _ w) as [[evs g] w'].
  - cbn [length Nat.add gen_run gen_pc_of]. unfold gen_step.
    cbn [gen_pc_of gen_self gen_response]. rewrite IH.
    by destruct (run_gen fuel _ w) as [[evs g] w'].
Qed.


Lemma chain_last_more (cur : Response) (w w_end : world) (pages : list Response) :
  chain cur w pages w_end →
  json_eq_zero (more (default cur (last pages))) = true.
Proof.
  induction 1 as [cur w Hmore|cur r w w' w'' rest Hmore Hget Hchain IH]; [done|].
  destruct rest as [|r' rest]; [exact IH|]. rewrite last_cons_cons.
  destruct (last (r' :: rest)) eqn:E; [exact IH|by apply last_None in E].
Qed.


(** X13. The iteration does not restart: iterating the same object again
    after a complete iteration yields the posts of the last page only, and
    fetches nothing. *)
Theorem iterate_again_last_page_only (self : Response) (w w_end : world)
    (pages : list Response) (fuel : nat) :
  chain self w pages w_end →
  let self' := foldl turn_page self pages in
  (length (posts self') + 2 ≤ fuel)%nat →
  run_gen fuel (Response_iter self') w_end
  = (map EvYield (posts (default self (last pages))),
     mk_gen self' RefSelf (PcDone None), w_end).
Proof.
  intros Hchain self' Hfuel.
  assert (Hmore : json_eq_zero (more self') = true).
  { pose proof (chain_last_more self w w_end pages Hchain) as Hlast.
    unfold self'. rewrite foldl_turn_page. by destruct (last pages). }
  assert (Hposts : posts self' = posts (default self (last pages))).
  { unfold self'. rewrite foldl_turn_page. by destruct (last pages). }
  destruct fuel as [|fuel]; [lia|].
  unfold Response_iter. cbn [gen_run gen_pc_of]. unfold gen_step.
  cbn [gen_pc_of gen_self].
  rewrite gen_run_last_page; [by rewrite Hposts|done|lia].
Qed.

(** X14. When fetching the next page raises, the iteration ends with that
    exception after the posts of the current page and the one request; the
    object keeps the fields it had. *)
Theorem iterate_fetch_raises (self : Response) (w w' : world) (e : exn)
    (fuel : nat) :
  json_eq_zero (more self) = false →
  fetch self w = (Raise e, w') →
  (length (posts self) + 2 ≤ fuel)%nat →
  run_gen fuel (Response_iter self) w
  = (map EvYield (posts self) ++ [EvGet (next self)],
     mk_gen self RefSelf (PcDone (Some e)), w').
Proof.
  intros Hmore Hget Hfuel. destruct fuel as [|fuel]; [lia|].
  unfold Response_iter. cbn [gen_run gen_pc_of]. unfold gen_step.
  cbn [gen_pc_of gen_self].
  replace fuel with (length (posts self) + S (fuel - length (posts self) - 1))%nat
    by lia.
  rewrite gen_run_yields. cbn [gen_run gen_pc_of]. unfold gen_step.
  cbn [gen_pc_of gen_self gen_response]. unfold gen_current.
  cbn [gen_response gen_self]. rewrite Hmore, Hget.
  by destruct (fuel - length (posts self) - 1)%nat.
Qed.

End IterationTheory.

Lemma sample_page_chain :
  let sess := mk_Session (VStr "abc") in
  let first := sample_page 200 (Some (JStr "http://webhose.io/search?ts=2")) 1 in
  let second := sample_page 200 (Some (JStr "http://webhose.io/search?ts=3")) 0 in
  let self :=
    mk_Response first sess (JInt 12) "http://webhose.io/search?ts=2" "2"
      (JInt 100) (JInt 1) [sample_post 1] in
  let r :=
    mk_Response second sess (JInt 7) "http://webhose.io/search?ts=3" "3"
      (JInt 99) (JInt 0) [] in
  page_chain sample_urljoin sample_urlparse_query sample_parse_qs sample_world
    (sample_requests_get second) self [] [r]
    [("http://webhose.io/search?ts=2", ∅)].
Proof.
  intros sess first second self r.
  eapply page_chain_next; [reflexivity|vm_compute; reflexivity|].
  apply page_chain_last. reflexivity.
Qed.


Lemma iterate_again_last_page_only_witness :
  let sess := mk_Session (VStr "abc") in
  let first := sample_page 200 (Some (JStr "http://webhose.io/search?ts=2")) 1 in
  let second := sample_page 200 (Some (JStr "http://webhose.io/search?ts=3")) 0 in
  let self' :=
    mk_Response first sess (JInt 7) "http://webhose.io/search?ts=3" "3"
      (JInt 99) (JInt 0) [] in
  gen_run sample_urljoin sample_urlparse_query sample_parse_qs sample_world
    (sample_requests_get second) 2 (Response_iter self')
    [("http://webhose.io/search?ts=2", ∅)]
  = ([], mk_gen self' RefSelf (PcDone None), [("http://webhose.io/search?ts=2", ∅)]).
Proof.
  intros sess first second self'.
  apply (iterate_again_last_page_only sample_urljoin sample_urlparse_query
           sample_parse_qs sample_world (sample_requests_get second)
           _ [] _ _ 2 sample_page_chain).
  simpl. lia.
Defined.

Lemma iterate_fetch_raises_witness :
  let sess := mk_Session (VStr "abc") in
  let first := sample_page 200 (Some (JStr "http://webhose.io/search?ts=2")) 1 in
  let self :=
    mk_Response first sess (JInt 12) "http://webhose.io/search?ts=2" "2"
      (JInt 100) (JInt 1) [sample_post 1] in
  gen_run sample_urljoin sample_urlparse_query sample_parse_qs sample_world
    (sample_requests_get (sample_page 200 None 0)) 3 (Response_iter self) []
  = ([EvYield (sample_post 1); EvGet "http://webhose.io/search?ts=2"],
     mk_gen self RefSelf (PcDone (Some KeyError)),
     [("http://webhose.io/search?ts=2", ∅)]).
Proof.
  intros sess first self.
  apply (iterate_fetch_raises sample_urljoin sample_urlparse_query
           sample_parse_qs sample_world
           (sample_requests_get (sample_page 200 None 0)) self []
           [("http://webhose.io/search?ts=2", ∅)] KeyError 3);
    [reflexivity|vm_compute; reflexivity|simpl; lia].
Defined.

(** * Further properties: the timestamp parser *)

Lemma string_get_None (s : string) (n : nat) :
  String.get n s = None → (String.length s ≤ n)%nat.
Proof.
  revert n. induction s as [|c s IH]; intros n; simpl; [lia|].
  destruct n as [|n]; [done|]. intros H. apply IH in H. lia.
Qed.

Lemma substring_beyond (s : string) (n m : nat) :
  (String.length s ≤ n)%nat → String.substring n m s = "".
Proof.
  revert n. induction s as [|c s IH]; intros n Hn; simpl.
  - by destruct n, m.
  - destruct n as [|n]; simpl in Hn; [lia|]. apply IH. lia.
Qed.

Lemma length_substring_0 (s : string) (n : nat) :
  String.length (String.substring 0 n s) = Nat.min n (String.length s).
Proof.
  revert n. induction s as [|c s IH]; intros n; simpl.
  - by destruct n.
  - destruct n as [|n]; simpl; [done|]. by rewrite IH.
Qed.

Lemma string_length_app (a b : string) :
  String.length (a +:+ b) = (String.length a + String.length b)%nat.
Proof. induction a as [|c a IH]; simpl; [done|]. by rewrite IH. Qed.

Lemma match_alt_length (a : list cclass) (s c r : string) :
  match_alt a s = Some (c, r) → String.length c = length a.
Proof.
  revert s c r. induction a as [|cl a IH]; intros s c r; simpl.
  - by intros [= <- <-].
  - destruct s as [|x s]; [done|]. destruct (cl x); [|done].
    destruct (match_alt a s) as [[c' r']|] eqn:Hm; [|done].
    intros [= <- <-]. simpl. f_equal. by apply (IH s c' r').
Qed.

(** A match consumes no more than the longest alternatives allow. *)
Lemma match_items_length (items : list item) (s : string)
    (caps : list (option ascii * string)) (rest : string) :
  match_items items s = Some (caps, rest) →
  (String.length s ≤ items_max_len items + String.length rest)%nat.
Proof.
  revert s caps rest. induction items as [|[tag alts] items IH];
    intros s caps rest; simpl.
  - intros [= <- <-]. lia.
  - induction alts as [|a alts IHalts]; [done|]. cbn [alts_max_len foldr].
    destruct (match_alt a s) as [[c r]|] eqn:Hm.
    + destruct (match_items items r) as [[caps' r']|] eqn:Hrest.
      * intros [= <- <-]. apply IH in Hrest.
        pose proof (match_alt_length _ _ _ _ Hm) as Hc.
        apply match_alt_capture in Hm. subst s. rewrite string_length_app.
        unfold alts_max_len in *. lia.
      * intros H. apply IHalts in H. unfold alts_max_len in *. lia.
    + intros H. apply IHalts in H. unfold alts_max_len in *. lia.
Qed.

Lemma py_int_raises_value (s : string) : raises_only value_error (py_int s).
Proof.
  unfold py_int.
  assert (H : ∀ t, raises_only value_error
                     match digits_then_space 0 false t with
                     | Some n => Ok n
                     | None => Raise ValueError
                     end).
  { intros t. destruct (digits_then_space 0 false t);
      [apply raises_only_Ok|by apply raises_only_Raise]. }
  destruct (lstrip s) as [|c t]; [apply H|].
  destruct c as [[] [] [] [] [] [] [] []]; try apply H.
  apply raises_only_bind; [apply H|]. intros ?. apply raises_only_Ok.
Qed.

Lemma group_raises_value (caps : list (option ascii * string)) (d : ascii)
    (dflt : Z) :
  raises_only value_error (group caps d dflt).
Proof.
  induction caps as [|[[d'|] cap] caps IH]; simpl; [apply raises_only_Ok| |done].
  destruct (Ascii.eqb d d'); [apply py_int_raises_value|done].
Qed.

Lemma strptime_raises_value (data format : string) :
  str_contains nul data = false → str_contains nul format = false →
  raises_only value_error (strptime data format).
Proof.
  intros Hdata Hformat. unfold strptime. rewrite Hdata, Hformat. cbn [orb].
  destruct (format_items format) as [items|]; [|by apply raises_only_Raise].
  destruct (match_items items data) as [[caps [|c rest]]|];
    try by apply raises_only_Raise.
  repeat (apply raises_only_bind; [apply group_raises_value|intros ?]).
  unfold datetime_new. destruct (_ && _);
    [apply raises_only_Ok|by apply raises_only_Raise].
Qed.

(** X15. On an ASCII text, [parse_iso8601] raises [TypeError] when what is
    left of the text without its last ten characters has a NUL byte, which
    [strptime] does not take. Otherwise it raises nothing but [ValueError]
    (a text that is not of the format, or not a date) and [OverflowError]
    (a result outside the years 1 to 9999); the index [str_date[23]] never
    fails, the slice before it having failed first on a short text. Only a
    text of 25 to 29 characters can parse: outside that, the result is
    [ValueError]. *)
Theorem parse_iso8601_failures (s : string) :
  ascii_string s = true →
  (str_contains nul (str_drop_last s 10) = true →
   parse_iso8601 s = Raise TypeError)
  ∧ (str_contains nul (str_drop_last s 10) = false →
     (∀ e, parse_iso8601 s = Raise e → e = ValueError ∨ e = OverflowError)
     ∧ ((String.length s < 25 ∨ 29 < String.length s)%nat →
        parse_iso8601 s = Raise ValueError)).
Proof.
  intros _. split.
  { intros Hnul. unfold parse_iso8601, strptime. by rewrite Hnul. }
  intros Hnul. unfold parse_iso8601.
  pose proof (strptime_raises_value (str_drop_last s 10) "%Y-%m-%dT%H:%M:%S"
                Hnul eq_refl) as Hstrp.
  pose proof (py_int_raises_value (str_slice s 24 26)) as Hh.
  pose proof (py_int_raises_value (str_slice s 27 29)) as Hm.
  split.
  - intros e.
    destruct (strptime _ _) as [dt|e1]; simpl;
      [|intros [= <-]; left; by apply Hstrp].
    destruct (py_int (str_slice s 24 26)) as [h|e2] eqn:Hhours; simpl;
      [|intros [= <-]; left; by apply Hh].
    destruct (py_int (str_slice s 27 29)) as [m|e3]; simpl;
      [|intros [= <-]; left; by apply Hm].
    unfold str_index. destruct (String.get 23 s) as [c|] eqn:Hget; simpl.
    + unfold datetime_sub. destruct (_ && _).
      * by destruct (ord2ymd _) as [[??]?].
      * intros [= <-]. by right.
    + exfalso. apply string_get_None in Hget.
      unfold str_slice in Hhours. rewrite substring_beyond in Hhours by lia.
      discriminate Hhours.
  - intros [Hshort|Hlong].
    + destruct (strptime _ _) as [dt|e1]; simpl.
      * unfold str_slice. rewrite (substring_beyond s 24) by lia. reflexivity.
      * by rewrite (Hstrp e1 eq_refl).
    + unfold strptime. rewrite Hnul.
      change (str_contains nul "%Y-%m-%dT%H:%M:%S") with false. cbn [orb].
      rewrite iso_format_items.
      destruct (match_items _ _) as [[caps [|c rest]]|] eqn:Hmatch; try done.
      apply match_items_length in Hmatch.
      unfold str_drop_last in Hmatch. rewrite length_substring_0 in Hmatch.
      change (items_max_len _) with 19%nat in Hmatch. simpl in Hmatch. lia.
Qed.

Lemma parse_iso8601_failures_witness :
  parse_iso8601 "2016-06-01T10:00:00Z" = Raise ValueError
  ∧ (ValueError = ValueError ∨ ValueError = OverflowError)
  ∧ parse_iso8601 (String nul "016-06-01T10:00:00.000+03:00") = Raise TypeError.
Proof.
  destruct (parse_iso8601_failures "2016-06-01T10:00:00Z" eq_refl)
    as [_ Hclean].
  destruct (Hclean eq_refl) as [Honly Hlen].
  assert (H : parse_iso8601 "2016-06-01T10:00:00Z" = Raise ValueError).
  { apply Hlen. left. simpl. lia. }
  split; [exact H|]. split; [exact (Honly ValueError H)|].
  apply (proj1 (parse_iso8601_failures
                  (String nul "016-06-01T10:00:00.000+03:00") eq_refl)).
  reflexivity.
Defined.

(** *** The calendar is counted without gaps or repeats *)

Lemma days_before_year_succ (y : Z) :
  days_before_year (y + 1)
  = days_before_year y + 365 + (if is_leap y then 1 else 0).
Proof.
  unfold days_before_year, is_leap. cbv zeta.
  replace (y + 1 - 1) with y by lia.
  destruct (Z.eqb_spec (y mod 4) 0), (Z.eqb_spec (y mod 100) 0),
    (Z.eqb_spec (y mod 400) 0); simpl; Z.div_mod_to_equations; lia.
Qed.

Lemma days_before_year_mono (y y' : Z) :
  y ≤ y' → days_before_year y ≤ days_before_year y'.
Proof.
  intros Hle. unfold days_before_year. cbv zeta. Z.div_mod_to_equations. lia.
Qed.

Lemma month_cases (m : Z) :
  1 ≤ m ≤ 12 →
  m = 1 ∨ m = 2 ∨ m = 3 ∨ m = 4 ∨ m = 5 ∨ m = 6 ∨ m = 7 ∨ m = 8 ∨ m = 9
  ∨ m = 10 ∨ m = 11 ∨ m = 12.
Proof. lia. Qed.

(** The day of the year of a date, and where the next month starts. *)
Lemma day_of_year_bounds (y m d : Z) :
  valid_date y m d →
  1 ≤ days_before_month y m + d ≤ 365 + (if is_leap y then 1 else 0)
  ∧ days_before_month y m + days_in_month y m
    = (if m =? 12 then 365 + (if is_leap y then 1 else 0)
       else days_before_month y (m + 1)).
Proof.
  intros (_ & Hm & Hd). revert Hd.
  unfold days_before_month, days_in_month.
  destruct (month_cases m Hm) as [->|[->|[->|[->|[->|[->|[->|[->|[->|[->|[->| ->]]]]]]]]]]];
    destruct (is_leap y); simpl; unfold DAYS_IN_MONTH, DAYS_BEFORE_MONTH; simpl;
    lia.
Qed.

Lemma days_before_month_mono (y m m' : Z) :
  1 ≤ m ≤ 12 → 1 ≤ m' ≤ 12 → m < m' →
  days_before_month y m + days_in_month y m ≤ days_before_month y m'.
Proof.
  intros Hm Hm' Hlt. unfold days_before_month, days_in_month.
  destruct (month_cases m Hm) as [->|[->|[->|[->|[->|[->|[->|[->|[->|[->|[->| ->]]]]]]]]]]];
    destruct (month_cases m' Hm') as [->|[->|[->|[->|[->|[->|[->|[->|[->|[->|[->| ->]]]]]]]]]]];
    try lia;
    destruct (is_leap y); simpl; unfold DAYS_IN_MONTH, DAYS_BEFORE_MONTH; simpl;
    lia.
Qed.

Lemma ymd2ord_range (y m d : Z) :
  valid_date y m d → 1 ≤ ymd2ord y m d ≤ 3652059.
Proof.
  intros Hvalid. destruct (day_of_year_bounds y m d Hvalid) as [Hdoy _].
  destruct Hvalid as (Hy & _ & _). unfold ymd2ord.
  pose proof (days_before_year_succ y) as Hsucc.
  pose proof (days_before_year_mono 1 y ltac:(lia)) as Hlow.
  pose proof (days_before_year_mono (y + 1) 10000 ltac:(lia)) as Hhigh.
  change (days_before_year 1) with 0 in Hlow.
  change (days_before_year 10000) with 3652059 in Hhigh. lia.
Qed.

Lemma ymd2ord_inj (y m d y' m' d' : Z) :
  valid_date y m d → valid_date y' m' d' →
  ymd2ord y m d = ymd2ord y' m' d' →
  y = y' ∧ m = m' ∧ d = d'.
Proof.
  intros Hv Hv' Heq.
  destruct (day_of_year_bounds y m d Hv) as [Hdoy _].
  destruct (day_of_year_bounds y' m' d' Hv') as [Hdoy' _].
  pose proof (days_before_year_succ y) as Hs.
  pose proof (days_before_year_succ y') as Hs'.
  unfold ymd2ord in Heq.
  assert (Hy : y = y').
  { destruct (Z.lt_trichotomy y y') as [Hlt|[Heqy|Hgt]]; [|done|].
    - pose proof (days_before_year_mono (y + 1) y' ltac:(lia)). lia.
    - pose proof (days_before_year_mono (y' + 1) y ltac:(lia)). lia. }
  subst y'. destruct Hv as (_ & Hm & Hd), Hv' as (_ & Hm' & Hd').
  assert (Hmm : m = m').
  { destruct (Z.lt_trichotomy m m') as [Hlt|[Heqm|Hgt]]; [|done|].
    - pose proof (days_before_month_mono y m m' Hm Hm' Hlt). lia.
    - pose proof (days_before_month_mono y m' m Hm' Hm ltac:(lia)). lia. }
  subst m'. repeat split. lia.
Qed.

Lemma valid_datetime_date (dt : datetime) :
  valid_datetime dt = true →
  valid_date (year dt) (month dt) (day dt)
  ∧ 0 ≤ hour dt ≤ 23 ∧ 0 ≤ minute dt ≤ 59 ∧ 0 ≤ second dt ≤ 59.
Proof.
  intros H. apply valid_datetime_bounds in H. unfold valid_date. tauto.
Qed.

(** Two dates of the calendar with the same count of seconds are the same. *)
Lemma datetime_seconds_inj (dt dt' : datetime) :
  valid_datetime dt = true → valid_datetime dt' = true →
  datetime_seconds dt = datetime_seconds dt' → dt = dt'.
Proof.
  intros Hv Hv' Heq.
  apply valid_datetime_date in Hv as (Hd & HH & HM & HS).
  apply valid_datetime_date in Hv' as (Hd' & HH' & HM' & HS').
  unfold datetime_seconds in Heq.
  assert (Hord : ymd2ord (year dt) (month dt) (day dt)
                 = ymd2ord (year dt') (month dt') (day dt')) by lia.
  destruct (ymd2ord_inj _ _ _ _ _ _ Hd Hd' Hord) as (Hy & Hm & Hday).
  destruct dt, dt'. simpl in *. f_equal; lia.
Qed.

Lemma parse_iso8601_timestamp_text (dt : datetime) (frac : string)
    (sign sep : ascii) (oh om : Z) :
  valid_datetime dt = true →
  String.length frac = 4%nat →
  0 ≤ oh < 100 → 0 ≤ om < 100 →
  parse_iso8601 (timestamp_text dt frac sign oh sep om)
  = datetime_sub dt
      ((oh * 3600 + om * 60) * (if Ascii.eqb sign "+" then 1 else -1)).
Proof.
  intros Hvalid Hfrac Hoh Hom.
  destruct (timestamp_text_slices dt frac sign sep oh om Hfrac)
    as (Hprefix & Hhours & Hminutes & Hsign).
  unfold parse_iso8601. rewrite Hprefix, Hhours, Hminutes, Hsign.
  rewrite strptime_isoformat by done. rewrite !py_int_pad2 by done.
  reflexivity.
Qed.

Lemma datetime_seconds_range (dt : datetime) :
  valid_datetime dt = true →
  86400 ≤ datetime_seconds dt < 86400 * 3652060.
Proof.
  intros Hv. apply valid_datetime_date in Hv as (Hd & HH & HM & HS).
  pose proof (ymd2ord_range _ _ _ Hd). unfold datetime_seconds. lia.
Qed.

(** X16. A timestamp with offset zero parses to the local time it writes:
    reading undoes writing, for every date of the calendar, whatever the
    fraction, the sign and the separator. *)
Theorem parse_iso8601_zero_offset (dt : datetime) (frac : string)
    (sign sep : ascii) :
  valid_datetime dt = true →
  String.length frac = 4%nat →
  parse_iso8601 (timestamp_text dt frac sign 0 sep 0) = Ok dt.
Proof.
  intros Hvalid Hfrac.
  rewrite parse_iso8601_timestamp_text by (done || lia).
  replace ((0 * 3600 + 0 * 60) * _) with 0 by lia.
  destruct (datetime_sub_spec dt 0) as [Hin _]. cbv zeta in Hin.
  destruct Hin as (utc & Hsub & Hutc & Hsec).
  { pose proof (datetime_seconds_range dt Hvalid). lia. }
  rewrite Hsub. f_equal. apply datetime_seconds_inj; [done|done|lia].
Qed.

Lemma parse_iso8601_zero_offset_witness :
  parse_iso8601 (timestamp_text (mk_datetime 2016 2 29 23 59 59) ".000" "+" 0 ":" 0)
  = Ok (mk_datetime 2016 2 29 23 59 59).
Proof.
  apply parse_iso8601_zero_offset; reflexivity.
Defined.

(** X18. Two timestamps that write the same instant, each with its own
    offset, parse to the same datetime: the result does not depend on the
    offset the instant was written with. *)
Theorem parse_iso8601_same_instant (dt dt' : datetime) (frac frac' : string)
    (sign sep sign' sep' : ascii) (oh om oh' om' : Z) :
  valid_datetime dt = true → valid_datetime dt' = true →
  String.length frac = 4%nat → String.length frac' = 4%nat →
  0 ≤ oh < 100 → 0 ≤ om < 100 → 0 ≤ oh' < 100 → 0 ≤ om' < 100 →
  datetime_seconds dt
  - (oh * 3600 + om * 60) * (if Ascii.eqb sign "+" then 1 else -1)
  = datetime_seconds dt'
    - (oh' * 3600 + om' * 60) * (if Ascii.eqb sign' "+" then 1 else -1) →
  parse_iso8601 (timestamp_text dt frac sign oh sep om)
  = parse_iso8601 (timestamp_text dt' frac' sign' oh' sep' om').
Proof.
  intros Hv Hv' Hf Hf' Hoh Hom Hoh' Hom' Hsame.
  rewrite !parse_iso8601_timestamp_text by done.
  set (off := (oh * 3600 + om * 60) * _) in *.
  set (off' := (oh' * 3600 + om' * 60) * _) in *.
  destruct (datetime_sub_spec dt off) as [Hin Hout].
  destruct (datetime_sub_spec dt' off') as [Hin' Hout']. cbv zeta in *.
  destruct (decide (86400 ≤ datetime_seconds dt - off < 86400 * 3652060))
    as [Hrange|Hrange].
  - destruct (Hin Hrange) as (utc & -> & Hutc & Hsec).
    destruct (Hin' ltac:(lia)) as (utc' & -> & Hutc' & Hsec').
    f_equal. apply datetime_seconds_inj; [done|done|lia].
  - rewrite (Hout Hrange). rewrite Hout'; [done|lia].
Qed.

Lemma parse_iso8601_same_instant_witness :
  parse_iso8601 (timestamp_text (mk_datetime 2016 6 1 10 0 0) ".000" "+" 3 ":" 0)
  = parse_iso8601 (timestamp_text (mk_datetime 2016 5 31 23 30 0) ".123" "-" 7 ":" 30).
Proof.
  apply parse_iso8601_same_instant; try reflexivity; lia.
Defined.

(** * Further properties: what a rendering depends on *)

Section QueryFrame.

Context (ALL_FIELDS LIST_FIELDS DIRECT_FIELDS : list string).
Implicit Types (self : gmap string value) (f : string) (v : value).

Lemma append_if_agree self self' f term (qs : list value) :
  self !! f = self' !! f →
  append_if self f term qs = append_if self' f term qs.
Proof. intros H. unfold append_if, getattr. by rewrite H. Qed.

Lemma filter_set_agree self self' (l : list string) :
  (∀ f, f ∈ l → self !! f = self' !! f) →
  filter_set self l = filter_set self' l.
Proof.
  induction l as [|x l IH]; intros H; simpl; [done|].
  unfold getattr. rewrite (H x) by apply list_elem_of_here.
  rewrite IH; [done|]. intros f Hf. apply H. by apply list_elem_of_further.
Qed.

Lemma filter_set_subset self (l keep : list string) :
  filter_set self l = Ok keep → ∀ f, f ∈ keep → f ∈ l.
Proof.
  revert keep. induction l as [|x l IH]; simpl; intros keep.
  - intros [= <-] f Hf. done.
  - unfold getattr. destruct (self !! x) as [v|]; simpl; [|done].
    destruct (filter_set self l) as [keep'|]; simpl; [|done].
    intros [= <-] f. destruct (truthy v).
    + rewrite !elem_of_cons. intros [->|Hf]; [by left|right; by apply (IH keep')].
    + intros Hf. apply list_elem_of_further. by apply (IH keep').
Qed.

(** X19. [query_string] reads the attributes of the nine bespoke filters,
    of [DIRECT_FIELDS] and of [LIST_FIELDS], and nothing else: two Queries
    that agree on them render alike (or fail alike), whatever other
    attributes they carry. *)
Theorem query_string_reads_only_filters self self' :
  (∀ f, f ∈ map fst named_slots ++ DIRECT_FIELDS ++ LIST_FIELDS →
        self !! f = self' !! f) →
  query_string LIST_FIELDS DIRECT_FIELDS self
  = query_string LIST_FIELDS DIRECT_FIELDS self'.
Proof.
  intros Hagree.
  assert (Hnamed : ∀ f, f ∈ map fst named_slots → self !! f = self' !! f).
  { intros f Hf. apply Hagree. apply elem_of_app. by left. }
  assert (Hdirect : ∀ f, f ∈ DIRECT_FIELDS → self !! f = self' !! f).
  { intros f Hf. apply Hagree. rewrite !elem_of_app. auto. }
  assert (Hlist : ∀ f, f ∈ LIST_FIELDS → self !! f = self' !! f).
  { intros f Hf. apply Hagree. rewrite !elem_of_app. auto. }
  assert (Hext : ∀ {A B} (m : result A) (k k' : A → result B),
            (∀ a, m = Ok a → k a = k' a) → (m ≫= k) = (m ≫= k')).
  { intros A B [a|e] k k' Hk; [by apply Hk|done]. }
  unfold query_string.
  rewrite (append_if_agree self self' "all_terms") by (apply Hnamed; in_list).
  apply Hext; intros ? _.
  rewrite (append_if_agree self self' "exact_phrase") by (apply Hnamed; in_list).
  apply Hext; intros ? _.
  rewrite (append_if_agree self self' "some_terms") by (apply Hnamed; in_list).
  apply Hext; intros ? _.
  rewrite (append_if_agree self self' "exclude") by (apply Hnamed; in_list).
  apply Hext; intros ? _.
  rewrite (append_if_agree self self' "is_first") by (apply Hnamed; in_list).
  apply Hext; intros ? _.
  rewrite (append_if_agree self self' "thread_title") by (apply Hnamed; in_list).
  apply Hext; intros ? _.
  rewrite (append_if_agree self self' "thread_section_title")
    by (apply Hnamed; in_list).
  apply Hext; intros ? _.
  rewrite (append_if_agree self self' "language") by (apply Hnamed; in_list).
  apply Hext; intros ? _.
  rewrite (append_if_agree self self' "thread_country") by (apply Hnamed; in_list).
  apply Hext; intros ? _.
  rewrite <- (filter_set_agree self self' DIRECT_FIELDS Hdirect).
  apply Hext; intros keep Hkeep.
  rewrite (result_mapM_ext (direct_string self) (direct_string self')); cycle 1.
  { intros f Hf. unfold direct_string, getattr.
    by rewrite (Hdirect f (filter_set_subset _ _ _ Hkeep f Hf)). }
  apply Hext; intros ? _.
  rewrite <- (filter_set_agree self self' LIST_FIELDS Hlist).
  apply Hext; intros keepl Hkeepl.
  rewrite (result_mapM_ext (list_string self) (list_string self')); [done|].
  intros f Hf. unfold list_string, getattr.
  by rewrite (Hlist f (filter_set_subset _ _ _ Hkeepl f Hf)).
Qed.

Lemma filter_named_absent f :
  f ∉ map fst named_slots →
  List.filter (λ sl, String.eqb f sl.1) named_slots = [].
Proof.
  induction named_slots as [|sl l IH]; simpl; [done|].
  rewrite not_elem_of_cons. intros [Hne Hl].
  destruct (String.eqb_spec f sl.1); [done|]. by apply IH.
Qed.

(** X20. A Query constructed with one filter of the tables alone: a direct
    field holding a true value [v] renders [field:v]; a list field holding
    a non-empty string renders [(field:s)], and holding a non-empty list,
    the OR-group of its values. *)
Theorem query_string_single_table_field f :
  settings_cover ALL_FIELDS LIST_FIELDS DIRECT_FIELDS = true →
  f ∉ map fst named_slots →
  (∀ v,
     occurrences f DIRECT_FIELDS = 1%nat → f ∉ LIST_FIELDS → truthy v = true →
     query_string LIST_FIELDS DIRECT_FIELDS
       (Query_init ALL_FIELDS LIST_FIELDS {[f := v]})
     = Ok (f +:+ ":" +:+ py_str v))
  ∧ (∀ v (l : list string),
       occurrences f LIST_FIELDS = 1%nat → f ∉ DIRECT_FIELDS → l ≠ [] →
       v = VList l ∨ (∃ s, v = VStr s ∧ l = [s]) →
       query_string LIST_FIELDS DIRECT_FIELDS
         (Query_init ALL_FIELDS LIST_FIELDS {[f := v]})
       = Ok ("(" +:+ String.concat " OR " (map (λ x, f +:+ ":" +:+ x) l) +:+ ")")).
Proof.
  intros Hcov Hnamed.
  assert (Htext : f ∉ ["all_terms"; "some_terms"]).
  { intros Hin. apply Hnamed. revert Hin. rewrite !elem_of_cons.
    intros [->|[->|[]%elem_of_nil]]; in_list. }
  split.
  - intros v Hocc Hl Hv.
    assert (Hst : stored LIST_FIELDS f v = v) by by apply stored_scalar.
    assert (Hall : f ∈ ALL_FIELDS).
    { apply (settings_cover_elem _ _ _ _ Hcov). rewrite !elem_of_app.
      right. left. apply occurrences_elem_of. by rewrite Hocc. }
    rewrite query_string_single; [|done|done|done].
    rewrite (filter_spec_slots _ _ (String.eqb f)).
    rewrite (filter_eqb_absent f LIST_FIELDS) by done.
    rewrite filter_eqb_repeat, Hocc, filter_named_absent by done.
    cbn [map app flat_map repeat]. unfold spec_clause, direct_slot. cbn [fst snd].
    rewrite Query_init_lookup, bool_decide_eq_true_2 by done.
    rewrite lookup_singleton_eq. cbn [default from_option id]. rewrite Hst, Hv.
    reflexivity.
  - intros v l Hocc Hd Hne Hv.
    assert (Hin : f ∈ LIST_FIELDS) by (apply occurrences_elem_of; by rewrite Hocc).
    assert (Hst : stored LIST_FIELDS f v = VList l).
    { destruct Hv as [->|(s & -> & ->)];
        [by apply stored_not_str|by apply stored_list_str]. }
    assert (Hall : f ∈ ALL_FIELDS).
    { apply (settings_cover_elem _ _ _ _ Hcov). rewrite !elem_of_app. auto. }
    rewrite query_string_single;
      [|done|done|by intros _; rewrite Hst; apply orb_true_r].
    rewrite (filter_spec_slots _ _ (String.eqb f)).
    rewrite (filter_eqb_absent f DIRECT_FIELDS) by done.
    rewrite filter_eqb_repeat, Hocc, filter_named_absent by done.
    cbn [map app flat_map repeat]. unfold spec_clause, list_slot. cbn [fst snd].
    rewrite Query_init_lookup, bool_decide_eq_true_2 by done.
    rewrite lookup_singleton_eq. cbn [default from_option id]. rewrite Hst.
    destruct l; [done|]. reflexivity.
Qed.

End QueryFrame.

Lemma query_string_reads_only_filters_witness :
  let self : gmap string value :=
    Query_init sample_ALL_FIELDS sample_LIST_FIELDS {["author" := VStr "bob"]} in
  query_string sample_LIST_FIELDS sample_DIRECT_FIELDS self
  = query_string sample_LIST_FIELDS sample_DIRECT_FIELDS
      (<["no_such_filter" := VStr "x"]> self).
Proof.
  intros self.
  apply (query_string_reads_only_filters sample_LIST_FIELDS sample_DIRECT_FIELDS).
  intros f Hf. symmetry. apply lookup_insert_ne. intros <-.
  revert Hf. vm_compute. intros Hf.
  repeat (apply elem_of_cons in Hf as [Hf|Hf]; [discriminate Hf|]).
  by apply elem_of_nil in Hf.
Defined.

Lemma query_string_single_table_field_witness :
  query_string sample_LIST_FIELDS sample_DIRECT_FIELDS
    (Query_init sample_ALL_FIELDS sample_LIST_FIELDS {["author" := VInt 7]})
  = Ok "author:7"
  ∧ query_string sample_LIST_FIELDS sample_DIRECT_FIELDS
      (Query_init sample_ALL_FIELDS sample_LIST_FIELDS
         {["person" := VList ["ann"; "bob"]]})
    = Ok "(person:ann OR person:bob)".
Proof.
  split.
  - apply (proj1 (query_string_single_table_field sample_ALL_FIELDS
                    sample_LIST_FIELDS sample_DIRECT_FIELDS "author"
                    ltac:(vm_compute; reflexivity) ltac:(compute_done)) (VInt 7));
      [reflexivity|compute_done|reflexivity].
  - apply (proj2 (query_string_single_table_field sample_ALL_FIELDS
                    sample_LIST_FIELDS sample_DIRECT_FIELDS "person"
                    ltac:(vm_compute; reflexivity) ltac:(compute_done))
             (VList ["ann"; "bob"]) ["ann"; "bob"]);
      [reflexivity|compute_done|discriminate|by left].
Defined.

Lemma Post_init_never_returns_witness :
  Post_init [JObj {["uuid" := JStr "p1"]}] ∅ = Raise TypeError.
Proof.
  apply (proj1 (proj2 (Post_init_never_returns [JObj {["uuid" := JStr "p1"]}] ∅))).
  discriminate.
Defined.
